(** * Mission Control: the Kanban task board, its page and its API proxy

    A shallow embedding of the task-management core of the dashboard.
    - [Js]: the JavaScript primitives the components rely on (truthiness,
      [String.prototype.trim], property lookup through [Object.prototype]).
    - [Types]: the shared [Task] type (the [types.ts] part of
      [tasks/_components/task-detail.tsx]).
    - [Board]: the [TaskBoard] component (the task-board part of
      [tasks/_components/create-task-dialog.tsx]): grouping, review
      sub-filters, drag and drop handlers.
    - [Page]: [TasksPage] of [tasks/page.tsx]: [fetchTasks],
      [handleTaskMove].
    - [Detail]: [TaskDetail.handleUpdateStatus] of
      [tasks/_components/task-detail.tsx].
    - [Store]: the [api.tasks] table of [db/init.sql] as PostgREST serves
      it, with the status codes listed in
      [skills/mission-control-tasks/SKILL.md].
    - [Api]: the proxy routes [GET] and [POST /api/tasks] and
      [DELETE /api/tasks/:id] ([app/api/tasks/[id]/route.ts]).
    - [Dialog]: [CreateTaskDialog.handleSubmit] of
      [tasks/_components/create-task-dialog.tsx].
    - [Card], [Due]: the [TaskCard] helpers, the status badge of the
      detail header and [resolveDueState] of the board.
    - [TaskRoute], [Schema], [StepsRoute]: the [PATCH /api/tasks/:id]
      route, the [api.task_steps] and [api.task_reviews] tables with their
      cascading foreign keys, and the [GET /api/tasks/:id/steps] route.
    The lemmas and theorems follow the definitions. *)

From Stdlib Require Import ZArith NArith Lia Ascii String.
From stdpp Require Import base option strings gmap list pretty sorting.

Open Scope string_scope.
Open Scope list_scope.

(* ===================================================================== *)
(** ** JavaScript primitives *)
(* ===================================================================== *)

Module Js.

(** A JSON value, as [res.json()] and [JSON.parse] produce it. Numbers are
    restricted to integers: the code only ever tests them for truthiness. *)
#[warnings="-register-all"]
Inductive json : Type :=
| JNull
| JBool (b : bool)
| JNum (n : Z)
| JStr (s : string)
| JArr (items : list json)
| JObj (fields : list (string * json)).

(** [ToBoolean] on a JSON value: [null], [false], [0] and [""] are falsy,
    every array and object is truthy. *)
Definition truthy (v : json) : bool :=
  match v with
  | JNull => false
  | JBool b => b
  | JNum n => negb (n =? 0)%Z
  | JStr s => negb (String.eqb s "")
  | JArr _ => true
  | JObj _ => true
  end.

(** [ToBoolean] on the result of a property read: [undefined] (a missing
    key) is falsy. *)
Definition truthy_prop (v : option json) : bool :=
  match v with
  | Some v => truthy v
  | None => false
  end.

(** [ToBoolean] on a [string | null] (or [string | undefined]) value. *)
Definition truthy_str (v : option string) : bool :=
  match v with
  | Some s => negb (String.eqb s "")
  | None => false
  end.

(** [ToBoolean] on a [number | undefined] value holding an integer. *)
Definition truthy_num (v : option N) : bool :=
  match v with
  | Some n => negb (n =? 0)%N
  | None => false
  end.

(** ECMAScript [WhiteSpace] and [LineTerminator], for the code units below
    256 that a [string] of this development holds: TAB, LF, VT, FF, CR,
    SPACE and NO-BREAK SPACE. *)
Definition is_white_space (c : ascii) : bool :=
  let n := nat_of_ascii c in
  (n =? 9)%nat || (n =? 10)%nat || (n =? 11)%nat || (n =? 12)%nat
  || (n =? 13)%nat || (n =? 32)%nat || (n =? 160)%nat.

Fixpoint trim_start (s : string) : string :=
  match s with
  | EmptyString => EmptyString
  | String c rest => if is_white_space c then trim_start rest else s
  end.

Definition trim_end (s : string) : string :=
  String.rev (trim_start (String.rev s)).

(** [String.prototype.trim]. *)
Definition trim (s : string) : string := trim_end (trim_start s).

(** A string made of white space only (the empty string included). *)
Fixpoint whitespace_only (s : string) : bool :=
  match s with
  | EmptyString => true
  | String c rest => is_white_space c && whitespace_only rest
  end.

(** The properties every object literal inherits from [Object.prototype].
    Reading any of them yields a function (or, for [__proto__], the
    prototype object itself): a value that is neither [null] nor
    [undefined] and that has no [push] method. *)
Definition object_prototype_keys : list string :=
  [ "constructor"; "hasOwnProperty"; "isPrototypeOf";
    "propertyIsEnumerable"; "toLocaleString"; "toString"; "valueOf";
    "__proto__"; "__defineGetter__"; "__defineSetter__";
    "__lookupGetter__"; "__lookupSetter__" ].

(** [Number.prototype.toString] on a non-negative integer. *)
Definition number_toString (n : N) : string := pretty n.

End Js.

(* ===================================================================== *)
(** ** Shared types ([types.ts]) *)
(* ===================================================================== *)

Module Types.

(** [TaskStatus = "inbox" | "in_progress" | "review" | "done"]. *)
Inductive TaskStatus : Type := inbox | in_progress | review | done.

(** [TaskPriority = "low" | "medium" | "high" | "critical"]. *)
Inductive TaskPriority : Type := low | medium | high | critical.

#[export] Instance TaskStatus_eq_dec : EqDecision TaskStatus.
Proof. solve_decision. Defined.

#[export] Instance TaskPriority_eq_dec : EqDecision TaskPriority.
Proof. solve_decision. Defined.

Definition status_label (s : TaskStatus) : string :=
  match s with
  | inbox => "inbox"
  | in_progress => "in_progress"
  | review => "review"
  | done => "done"
  end.

Definition priority_label (p : TaskPriority) : string :=
  match p with
  | low => "low"
  | medium => "medium"
  | high => "high"
  | critical => "critical"
  end.

(** The status a string denotes, if it is one of the four labels. *)
Definition status_of_label (s : string) : option TaskStatus :=
  if String.eqb s "inbox" then Some inbox
  else if String.eqb s "in_progress" then Some in_progress
  else if String.eqb s "review" then Some review
  else if String.eqb s "done" then Some done
  else None.

Definition priority_of_label (s : string) : option TaskPriority :=
  if String.eqb s "low" then Some low
  else if String.eqb s "medium" then Some medium
  else if String.eqb s "high" then Some high
  else if String.eqb s "critical" then Some critical
  else None.

(** A task as the components hold it at run time: the JSON object the API
    returned. [status] and [priority] are the strings found there; the
    declared type promises one of the labels, the run-time value need not
    keep that promise. [None] stands for [null]. *)
Record Task : Type := mkTask {
  id : N;
  requirement_id : option N;
  title : string;
  description : option string;
  status : string;
  priority : string;
  agent_id : option string;
  session_key : option string;
  due_at : option string;
  started_at : option string;
  completed_at : option string;
  tags : list string;
  metadata : gmap string Js.json;
  created_at : string;
  updated_at : string
}.

(** A task whose [status] is one of the four [TaskStatus] labels. *)
Definition well_typed (t : Task) : Prop :=
  is_Some (status_of_label (status t)).

End Types.

Import Types.

(* ===================================================================== *)
(** ** The board ([TaskBoard]) *)
(* ===================================================================== *)

Module Board.

(** [Record<TaskStatus, Task[]>]: one array per column. *)
Record Buckets : Type := mkBuckets {
  b_inbox : list Task;
  b_in_progress : list Task;
  b_review : list Task;
  b_done : list Task
}.

Definition empty_buckets : Buckets := mkBuckets [] [] [] [].

(** [buckets[s]] for one of the four own keys. *)
Definition bucket (b : Buckets) (s : TaskStatus) : list Task :=
  match s with
  | inbox => b_inbox b
  | in_progress => b_in_progress b
  | review => b_review b
  | done => b_done b
  end.

(** [buckets[s].push(task)]: the task goes to the end of that array. *)
Definition push (s : TaskStatus) (t : Task) (b : Buckets) : Buckets :=
  match s with
  | inbox => mkBuckets (b_inbox b ++ [t]) (b_in_progress b) (b_review b) (b_done b)
  | in_progress => mkBuckets (b_inbox b) (b_in_progress b ++ [t]) (b_review b) (b_done b)
  | review => mkBuckets (b_inbox b) (b_in_progress b) (b_review b ++ [t]) (b_done b)
  | done => mkBuckets (b_inbox b) (b_in_progress b) (b_review b) (b_done b ++ [t])
  end.

(** What [buckets[key]] evaluates to on the object literal
    [{ inbox, in_progress, review, done }]. *)
Inductive Member : Type :=
| OwnBucket (s : TaskStatus)   (* one of the four arrays *)
| Inherited                    (* a member of Object.prototype *)
| Undefined.                   (* no such property *)

Definition get_member (key : string) : Member :=
  match status_of_label key with
  | Some s => OwnBucket s
  | None =>
      if bool_decide (key ∈ Js.object_prototype_keys) then Inherited
      else Undefined
  end.

(** One turn of the [forEach] callback:
    [const bucket = buckets[task.status] ?? buckets.inbox; bucket.push(task)].
    [None] is the [TypeError] raised when [bucket] has no [push]. *)
Definition group_step (b : Buckets) (t : Task) : option Buckets :=
  match get_member (status t) with
  | OwnBucket s => Some (push s t b)
  | Undefined => Some (push inbox t b)
  | Inherited => None
  end.

Fixpoint forEach (tasks : list Task) (b : Buckets) : option Buckets :=
  match tasks with
  | [] => Some b
  | t :: rest =>
      match group_step b t with
      | Some b' => forEach rest b'
      | None => None
      end
  end.

(** The [grouped] memo of [TaskBoard]. *)
Definition grouped (tasks : list Task) : option Buckets :=
  forEach tasks empty_buckets.

(** The column a task is shown in when grouping succeeds. *)
Definition column_of (t : Task) : TaskStatus :=
  match status_of_label (status t) with
  | Some s => s
  | None => inbox
  end.

(** [type ReviewBucket = "all" | "approval_needed" | "blocked"]. *)
Inductive ReviewBucket : Type := all | approval_needed | blocked.

(** [task.metadata?.review_reason]; [None] is [undefined]. *)
Definition review_reason (t : Task) : option Js.json :=
  metadata t !! "review_reason".

Record ReviewCounts : Type := mkCounts {
  c_all : nat;
  c_approval_needed : nat;
  c_blocked : nat
}.

(** The reducer of [reviewCounts]. *)
Definition count_step (acc : ReviewCounts) (t : Task) : ReviewCounts :=
  if Js.truthy_prop (review_reason t)
  then mkCounts (c_all acc) (c_approval_needed acc + 1) (c_blocked acc)
  else mkCounts (c_all acc) (c_approval_needed acc) (c_blocked acc + 1).

(** [reviewCounts] of a column: [null] outside the review column. *)
Definition reviewCounts (column : TaskStatus) (columnTasks : list Task)
  : option ReviewCounts :=
  match column with
  | review =>
      Some (fold_left count_step columnTasks
              (mkCounts (length columnTasks) 0 0))
  | _ => None
  end.

(** The predicate handed to [columnTasks.filter]. *)
Definition keep (reviewBucket : ReviewBucket) (t : Task) : bool :=
  match reviewBucket with
  | approval_needed => Js.truthy_prop (review_reason t)
  | blocked => negb (Js.truthy_prop (review_reason t))
  | all => true
  end.

(** [filteredTasks] of a column under the selected sub-filter. *)
Definition filteredTasks (column : TaskStatus) (reviewBucket : ReviewBucket)
    (columnTasks : list Task) : list Task :=
  match column, reviewBucket with
  | review, approval_needed => List.filter (keep reviewBucket) columnTasks
  | review, blocked => List.filter (keep reviewBucket) columnTasks
  | _, _ => columnTasks
  end.

(** What [event.dataTransfer.getData("text/plain")] holds at a drop, read
    the way [handleDrop] reads it. *)
Inductive DropData : Type :=
| NoData                                   (* the empty string *)
| Malformed                                (* JSON.parse throws *)
| Payload (taskId status : option string). (* the parsed object's fields *)

(** The component's local state. *)
Record State : Type := mkState {
  draggingId : option string;
  activeColumn : option TaskStatus;
  reviewBucket : ReviewBucket
}.

(** What one turn of [columns.map] works out for a column before it
    renders it: the review counts and the tasks shown. *)
Definition column_view (b : Buckets) (st : State) (column : TaskStatus)
  : option ReviewCounts * list Task :=
  let columnTasks := bucket b column in
  (reviewCounts column columnTasks,
   filteredTasks column (reviewBucket st) columnTasks).

(** [handleDragStart(task)(event)]: the next local state and what is
    stored in [event.dataTransfer], the JSON text of
    [{ taskId: task.id.toString(), status: task.status }]. *)
Definition handleDragStart (readOnly : bool) (t : Task) (st : State)
  : State * DropData :=
  if readOnly then (st, NoData)
  else
    (mkState (Some (Js.number_toString (id t))) (activeColumn st)
       (reviewBucket st),
     Payload (Some (Js.number_toString (id t))) (Some (status t))).

(** [handleDragEnd]. *)
Definition handleDragEnd (st : State) : State :=
  mkState None None (reviewBucket st).

(** [handleDragOver(status)(event)]. *)
Definition handleDragOver (readOnly : bool) (status : TaskStatus) (st : State)
  : State :=
  if readOnly then st
  else if bool_decide (activeColumn st = Some status) then st
  else mkState (draggingId st) (Some status) (reviewBucket st).

(** [handleDragLeave(status)()]. *)
Definition handleDragLeave (readOnly : bool) (status : TaskStatus) (st : State)
  : State :=
  if readOnly then st
  else if bool_decide (activeColumn st = Some status)
  then mkState (draggingId st) None (reviewBucket st)
  else st.

(** [handleDrop(status)(event)]: the next local state and the calls made
    to [onTaskMove] (a prop the page always passes), in order. *)
Definition handleDrop (readOnly : bool) (status : TaskStatus) (data : DropData)
    (st : State) : State * list (string * TaskStatus) :=
  if readOnly then (st, [])
  else
    let st' := mkState None None (reviewBucket st) in
    match data with
    | NoData => (st', [])
    | Malformed => (st', [])
    | Payload taskId pstatus =>
        if negb (Js.truthy_str taskId) || negb (Js.truthy_str pstatus)
        then (st', [])
        else
          match taskId, pstatus with
          | Some tid, Some ps =>
              if String.eqb ps (status_label status) then (st', [])
              else (st', [(tid, status)])
          | _, _ => (st', [])
          end
    end.

End Board.

(* ===================================================================== *)
(** ** The tasks page ([tasks/page.tsx]) *)
(* ===================================================================== *)

Module Page.

Record State : Type := mkState {
  tasks : list Task;
  isLoading : bool;
  error : option string;
  showCreate : bool;
  selectedTask : option Task;
  showDetail : bool
}.

(** How [fetch("/api/tasks")] followed by [res.json()] ends. *)
Inductive FetchResult : Type :=
| Threw (message : string)     (* fetch or res.json() rejected *)
| NotOk                        (* a response with res.ok false *)
| Fetched (data : list Task).  (* the parsed body *)

(** [selectedTask?.id]. *)
Definition selectedTaskId (s : State) : option N :=
  id <$> selectedTask s.

(** [fetchTasks], given how the request ends. *)
Definition fetchTasks (r : FetchResult) (s : State) : State :=
  match r with
  | Fetched data =>
      let sel :=
        if Js.truthy_num (selectedTaskId s) then
          match selectedTaskId s with
          | Some sid =>
              match List.find (fun t => (id t =? sid)%N) data with
              | Some updated => Some updated
              | None => selectedTask s
              end
          | None => selectedTask s
          end
        else selectedTask s in
      mkState data false None (showCreate s) sel (showDetail s)
  | NotOk =>
      mkState (tasks s) false (Some "Failed to fetch tasks") (showCreate s)
        (selectedTask s) (showDetail s)
  | Threw message =>
      mkState (tasks s) false (Some message) (showCreate s)
        (selectedTask s) (showDetail s)
  end.

(** Whether [TaskDetail] renders its drawer open: it returns [null]
    without a task, and the drawer follows [open]. *)
Definition detail_open (s : State) : bool :=
  showDetail s && bool_decide (is_Some (selectedTask s)).

(** The callback of [prev.map] in the optimistic update. [now] is the
    value of [new Date().toISOString()]. *)
Definition optimistic (taskId newStatus now : string) (t : Task) : Task :=
  if String.eqb (Js.number_toString (id t)) taskId then
    let started :=
      if String.eqb newStatus "in_progress" && negb (Js.truthy_str (started_at t))
      then Some now else started_at t in
    let completed :=
      if String.eqb newStatus "done" then Some now else completed_at t in
    mkTask (id t) (requirement_id t) (title t) (description t) newStatus
      (priority t) (agent_id t) (session_key t) (due_at t) started completed
      (tags t) (metadata t) (created_at t) (updated_at t)
  else t.

(** The [body] of the PATCH request, a [Record<string, string>]. *)
Definition patch_body (newStatus now : string) : gmap string string :=
  let body : gmap string string := {[ "status" := newStatus ]} in
  let body :=
    if String.eqb newStatus "in_progress"
    then <[ "started_at" := now ]> body else body in
  let body :=
    if String.eqb newStatus "done"
    then <[ "completed_at" := now ]> body else body in
  body.

(** Requests the page sends. *)
Inductive Request : Type :=
| PatchTask (taskId : string) (body : gmap string string)
| GetTasks.

(** [handleTaskMove(taskId, newStatus)] up to the point where the refetch
    of the failure path is issued: the optimistic state and the requests
    sent. [now_local] and [now_body] are the clock readings of the local
    update and of the request body; [patch_threw] tells whether the PATCH
    [fetch] rejected. *)
Definition handleTaskMove (taskId newStatus now_local now_body : string)
    (patch_threw : bool) (s : State) : State * list Request :=
  let s' :=
    mkState (optimistic taskId newStatus now_local <$> tasks s)
      (isLoading s) (error s) (showCreate s) (selectedTask s) (showDetail s) in
  (s', PatchTask taskId (patch_body newStatus now_body)
         :: (if patch_threw then [GetTasks] else [])).

(** [handleTaskSelect]. *)
Definition handleTaskSelect (t : Task) (s : State) : State :=
  mkState (tasks s) (isLoading s) (error s) (showCreate s) (Some t) true.

(** A drop on the board mounted in the page: [TaskBoard] gets
    [onTaskMove = handleTaskMove] and is not read-only. *)
Definition drop (column : TaskStatus) (data : Board.DropData)
    (now_local now_body : string) (patch_threw : bool)
    (bs : Board.State) (s : State) : Board.State * State * list Request :=
  let '(bs', calls) := Board.handleDrop false column data bs in
  let '(s', reqs) :=
    fold_left
      (fun acc call =>
         let '(s0, reqs0) := acc in
         let '(s1, reqs1) :=
           handleTaskMove (fst call) (status_label (snd call))
             now_local now_body patch_threw s0 in
         (s1, reqs0 ++ reqs1))
      calls (s, []) in
  (bs', s', reqs).

(** One whole drag of card [t]: picked up, dragged over [column], dropped
    there, and released. The board is not read-only. *)
Definition drag_and_drop (t : Task) (column : TaskStatus)
    (now_local now_body : string) (patch_threw : bool)
    (bs : Board.State) (s : State) : Board.State * State * list Request :=
  let '(bs1, data) := Board.handleDragStart false t bs in
  let bs2 := Board.handleDragOver false column bs1 in
  let '(bs3, s', reqs) :=
    drop column data now_local now_body patch_threw bs2 s in
  (Board.handleDragEnd bs3, s', reqs).

End Page.

(* ===================================================================== *)
(** ** The detail panel ([_components/task-detail.tsx]) *)
(* ===================================================================== *)

Module Detail.

(** [handleUpdateStatus(newStatus)]: the PATCH carries
    [JSON.stringify({ status: newStatus })]; when it resolves with
    [res.ok] ([patch_ok]) the page's [fetchTasks] runs. Without a task
    nothing is sent. *)
Definition handleUpdateStatus (task : option Task) (newStatus : string)
    (patch_ok : bool) : list Page.Request :=
  match task with
  | None => []
  | Some t =>
      Page.PatchTask (Js.number_toString (id t)) {[ "status" := newStatus ]}
        :: (if patch_ok then [Page.GetTasks] else [])
  end.

End Detail.

(* ===================================================================== *)
(** ** The store: [api.tasks] of [db/init.sql], served by PostgREST *)
(* ===================================================================== *)

Module Store.

(** [CREATE TYPE api.task_status AS ENUM ('inbox', 'in_progress',
    'review', 'done')] and [CREATE TYPE api.task_priority AS ENUM ('low',
    'medium', 'high', 'critical')]: the labels in declaration order. An
    enum value sorts by its position in this list. *)
Definition task_status_enum : list TaskStatus :=
  [inbox; in_progress; review; done].
Definition task_priority_enum : list TaskPriority :=
  [low; medium; high; critical].

(** Position of a label in an enum declaration. *)
Fixpoint enum_rank {A} `{EqDecision A} (labels : list A) (x : A) : nat :=
  match labels with
  | [] => 0
  | y :: rest => if decide (x = y) then 0 else S (enum_rank rest x)
  end.

(** A row of [api.tasks]. Instants ([TIMESTAMPTZ]) are integers; [None] is
    SQL [NULL]. Every id is a value the sequence handed out, so a natural
    number; filters, which carry any integer, are compared with it in
    [Z]. *)
Record Row : Type := mkRow {
  id : N;                        (* BIGSERIAL PRIMARY KEY *)
  requirement_id : option N;
  title : string;                (* TEXT NOT NULL *)
  description : option string;   (* TEXT *)
  status : TaskStatus;           (* NOT NULL DEFAULT 'inbox' *)
  priority : TaskPriority;       (* NOT NULL DEFAULT 'medium' *)
  agent_id : option string;
  session_key : option string;
  due_at : option Z;
  started_at : option Z;
  completed_at : option Z;
  tags : Js.json;                (* JSONB NOT NULL DEFAULT '[]' *)
  metadata : Js.json;            (* JSONB NOT NULL DEFAULT '{}' *)
  created_at : Z;                (* NOT NULL DEFAULT now() *)
  updated_at : Z                 (* NOT NULL DEFAULT now() *)
}.

(** The table and the sequence behind [id]. *)
Record DB : Type := mkDB {
  tasks : list Row;
  next_id : N
}.

(** The columns the proxy orders by, and the two directions. *)
Inductive Column : Type := col_priority | col_created_at.
Inductive Direction : Type := asc | desc.

(** How a priority sorts: its position in the enum declaration. *)
Definition priority_rank (p : TaskPriority) : nat :=
  enum_rank task_priority_enum p.

Definition sort_key (c : Column) (r : Row) : Z :=
  match c with
  | col_priority => Z.of_nat (priority_rank (priority r))
  | col_created_at => created_at r
  end.

(** [ORDER BY] over a list of terms: the first term that tells two rows
    apart decides. *)
Fixpoint compare_rows (order : list (Column * Direction)) (r1 r2 : Row)
  : comparison :=
  match order with
  | [] => Eq
  | (c, d) :: rest =>
      match (sort_key c r1 ?= sort_key c r2)%Z, d with
      | Eq, _ => compare_rows rest r1 r2
      | Lt, asc => Lt
      | Lt, desc => Gt
      | Gt, asc => Gt
      | Gt, desc => Lt
      end
  end.

(** [r1] may come before [r2] under [order]. *)
Definition before (order : list (Column * Direction)) (r1 r2 : Row) : Prop :=
  compare_rows order r1 r2 ≠ Gt.

#[export] Instance before_dec order : RelDecision (before order).
Proof. intros r1 r2. unfold before. solve_decision. Defined.

(** The JSON bodies of a [POST /tasks] that carry no other key than
    [title], [description], [status] and [priority]: the bodies
    [CreateTaskDialog] sends. For [title] and [description], [None] is a
    missing key or [null]; for [status] and [priority], [None] is a missing
    key. Bodies with further keys are outside this model. *)
Record NewTask : Type := mkNewTask {
  n_title : option string;
  n_description : option string;
  n_status : option string;
  n_priority : option string
}.

(** The range of [BIGINT], the type of every id column. *)
Definition bigint_min : Z := (-9223372036854775808)%Z.
Definition bigint_max : Z := 9223372036854775807%Z.
Definition in_bigint (n : Z) : bool :=
  (bigint_min <=? n)%Z && (n <=? bigint_max)%Z.

(** The value of an [id=eq.<text>] filter: text that reads as the integer
    [n], which may or may not fit a [bigint], or text that is no integer. *)
Inductive IdFilter : Type :=
| IdNumber (n : Z)
| IdInvalid (text : string).

(** Whether the id of a row, a value of the sequence, is the integer
    [n]. *)
Definition has_id (n : Z) (r : Row) : bool := (Z.of_N (id r) =? n)%Z.

(** The requests the proxy sends to PostgREST. *)
Inductive Request : Type :=
| SelectTasks (order : list (Column * Direction))
    (* GET /tasks?order=... *)
| InsertTask (body : NewTask)
    (* POST /tasks, Prefer: return=representation *)
| DeleteTask (filter : IdFilter).
    (* DELETE /tasks?id=eq.<id> *)

Inductive Body : Type :=
| Rows (rows : list Row)
| Empty
| Problem (text : string).

Record Response : Type := mkResponse {
  code : nat;
  body : Body
}.

(** The status and the priority a body asks for: the label it carries,
    if that is a label of the enum, or the column's default when it
    carries none. *)
Definition status_of_body (b : NewTask) : option TaskStatus :=
  match n_status b with
  | None => Some inbox
  | Some l => status_of_label l
  end.

Definition priority_of_body (b : NewTask) : option TaskPriority :=
  match n_priority b with
  | None => Some medium
  | Some l => priority_of_label l
  end.

(** How an insert ends: the stored row, or the status and message of the
    refusal. *)
Inductive Outcome : Type :=
| Stored (row : Row)
| Refused (code : nat) (text : string).

(** [INSERT INTO api.tasks] for such a body. The labels are converted when
    the body is read, and a label outside its enum ends the request there.
    Then the column defaults of [init.sql] fill what the body leaves out:
    the id is the next value of the sequence, which is used up even when
    the row is refused afterwards, and which has none left past the
    largest [bigint]. Then [title NOT NULL] is checked, and last the
    primary key. *)
Definition insert (now : Z) (b : NewTask) (db : DB) : DB * Outcome :=
  match status_of_body b, priority_of_body b with
  | Some st, Some pr =>
      if (bigint_max <? Z.of_N (next_id db))%Z then
        (db, Refused 400 "nextval: reached maximum value of sequence")
      else
        let used := mkDB (tasks db) (next_id db + 1)%N in
        match n_title b with
        | None =>
            (used, Refused 400 "null value in column title violates not-null constraint")
        | Some t =>
            if existsb (fun r => (id r =? next_id db)%N) (tasks db) then
              (used, Refused 409 "duplicate key value violates unique constraint tasks_pkey")
            else
              let row :=
                mkRow (next_id db) None t (n_description b) st pr None None
                  None None None (Js.JArr []) (Js.JObj []) now now in
              (mkDB (tasks db ++ [row]) (next_id db + 1)%N, Stored row)
        end
  | _, _ => (db, Refused 400 "invalid input value for enum")
  end.

(** PostgREST answering one request at instant [now]. Status codes as the
    task skill documents them: 200 for a read, 201 for a created row, 204
    for a delete, 400 for a rejected request, 409 for a unique-constraint
    conflict. A delete whose filter matches no row is a successful delete
    of nothing; a filter value that is no [bigint] is rejected. *)
Definition serve (now : Z) (req : Request) (db : DB) : DB * Response :=
  match req with
  | SelectTasks order =>
      (db, mkResponse 200 (Rows (merge_sort (before order) (tasks db))))
  | InsertTask b =>
      match insert now b db with
      | (db', Stored row) => (db', mkResponse 201 (Rows [row]))
      | (db', Refused code text) => (db', mkResponse code (Problem text))
      end
  | DeleteTask (IdNumber n) =>
      if in_bigint n then
        (mkDB (List.filter (fun r => negb (has_id n r)) (tasks db)) (next_id db),
         mkResponse 204 Empty)
      else (db, mkResponse 400 (Problem "value is out of range for type bigint"))
  | DeleteTask (IdInvalid _) =>
      (db, mkResponse 400 (Problem "invalid input syntax for type bigint"))
  end.

End Store.

(* ===================================================================== *)
(** ** The API proxy ([/api/tasks], [/api/tasks/:id]) *)
(* ===================================================================== *)

Module Api.

(** The JSON a route answers with. *)
Inductive Body : Type :=
| Data (rows : list Store.Row)   (* the upstream JSON, passed through *)
| OkTrue                         (* { ok: true } *)
| Error (message : string).      (* { error: message } *)

Record Response : Type := mkResponse {
  code : nat;
  body : Body
}.

(** [res.ok]: a status in the range 200-299. *)
Definition ok (code : nat) : bool := (200 <=? code)%nat && (code <=? 299)%nat.

(** [await res.text()]. *)
Definition text (b : Store.Body) : string :=
  match b with
  | Store.Problem t => t
  | _ => ""
  end.

(** [await res.json()]; [None] when the body is no JSON and the call
    throws. *)
Definition json (b : Store.Body) : option (list Store.Row) :=
  match b with
  | Store.Rows rows => Some rows
  | _ => None
  end.

(** The order the list route asks for:
    [?order=priority.desc,created_at.desc]. *)
Definition tasks_order : list (Store.Column * Store.Direction) :=
  [(Store.col_priority, Store.desc); (Store.col_created_at, Store.desc)].

(** The order the list route documents ("ordered by priority desc,
    created_at desc"): a row comes before another when its priority ranks
    higher, or ranks the same and it was created no earlier. *)
Definition listed_before (r1 r2 : Store.Row) : Prop :=
  (Store.priority_rank (Store.priority r2)
   < Store.priority_rank (Store.priority r1))%nat
  ∨ (Store.priority_rank (Store.priority r1)
     = Store.priority_rank (Store.priority r2)
     ∧ (Store.created_at r2 ≤ Store.created_at r1)%Z).

Section Routes.

(** The upstream [fetch]: it may change the upstream state and either
    yields a response or throws ([None]) with some message. *)
Context {S : Type}.
Variable fetch : Store.Request → S → S * option Store.Response.
Variable thrown : string.

Definition upstream_error (res : Store.Response) : Response :=
  mkResponse (Store.code res)
    (Error ("PostgREST error: " ++ text (Store.body res))%string).

(** Both routes that read the upstream JSON end the same way. *)
Definition pass_through (success : nat) (res : option Store.Response)
  : Response :=
  match res with
  | None => mkResponse 502 (Error thrown)
  | Some res =>
      if negb (ok (Store.code res)) then upstream_error res
      else
        match json (Store.body res) with
        | Some data => mkResponse success (Data data)
        | None => mkResponse 502 (Error thrown)
        end
  end.

(** [GET /api/tasks]. *)
Definition GET (s : S) : S * Response :=
  let '(s', res) := fetch (Store.SelectTasks tasks_order) s in
  (s', pass_through 200 res).

(** [POST /api/tasks]: the request body is forwarded as it came. *)
Definition POST (body : Store.NewTask) (s : S) : S * Response :=
  let '(s', res) := fetch (Store.InsertTask body) s in
  (s', pass_through 201 res).

(** [DELETE /api/tasks/:id]. *)
Definition DELETE (id : Store.IdFilter) (s : S) : S * Response :=
  let '(s', res) := fetch (Store.DeleteTask id) s in
  (s',
   match res with
   | None => mkResponse 502 (Error thrown)
   | Some res =>
       if negb (ok (Store.code res)) then upstream_error res
       else mkResponse 200 OkTrue
   end).

End Routes.

(** The routes over a reachable store at instant [now]. *)
Definition live (now : Z) (req : Store.Request) (db : Store.DB)
  : Store.DB * option Store.Response :=
  let '(db', res) := Store.serve now req db in (db', Some res).

(** The repository operations of the board, through the proxy. *)
Definition listTasks (now : Z) (db : Store.DB) : Store.DB * Response :=
  GET (live now) "fetch failed" db.

Definition createTask (now : Z) (body : Store.NewTask) (db : Store.DB)
  : Store.DB * Response :=
  POST (live now) "fetch failed" body db.

Definition deleteTask (now : Z) (id : Store.IdFilter) (db : Store.DB)
  : Store.DB * Response :=
  DELETE (live now) "fetch failed" id db.

End Api.

(* ===================================================================== *)
(** ** The create dialog ([_components/create-task-dialog.tsx]) *)
(* ===================================================================== *)

Module Dialog.

Record State : Type := mkState {
  title : string;
  description : string;
  status : TaskStatus;
  priority : TaskPriority;
  isSubmitting : bool;
  error : option string
}.

(** The JSON body [handleSubmit] posts. *)
Definition request_body (s : State) : Store.NewTask :=
  Store.mkNewTask
    (Some (Js.trim (title s)))
    (let d := Js.trim (description s) in
     if String.eqb d "" then None else Some d)
    (Some (status_label (status s)))
    (Some (priority_label (priority s))).

Section Submit.

(** [fetch("/api/tasks", { method: "POST", ... })] against some server
    state; [None] when it throws with [thrown]. *)
Context {S : Type}.
Variable post : Store.NewTask → S → S * option Api.Response.
Variable thrown : string.

(** [handleSubmit]: the server state after it, the dialog state after
    it, the bodies posted, and whether [onCreated] was called. *)
Definition handleSubmit (s : State) (srv : S)
  : S * State * list Store.NewTask * bool :=
  if String.eqb (Js.trim (title s)) "" then (srv, s, [], false)
  else
    let body := request_body s in
    let '(srv', res) := post body srv in
    match res with
    | Some res =>
        if Api.ok (Api.code res)
        then (srv', mkState "" "" inbox medium false None, [body], true)
        else (srv',
              mkState (title s) (description s) (status s) (priority s)
                false (Some "Failed to create task"),
              [body], false)
    | None =>
        (srv',
         mkState (title s) (description s) (status s) (priority s)
           false (Some thrown),
         [body], false)
    end.

End Submit.

(** The dialog in front of the proxy and a reachable store. *)
Definition submit (now : Z) (s : State) (db : Store.DB)
  : Store.DB * State * list Store.NewTask * bool :=
  handleSubmit
    (fun body db => let '(db', r) := Api.createTask now body db in (db', Some r))
    "fetch failed" s db.

End Dialog.

(* ===================================================================== *)
(** ** More JavaScript strings *)
(* ===================================================================== *)

Module JsText.

(** Lower-casing of one code unit below 256: A-Z and the capital letters
    of the Latin-1 block (all of 192-222 but the multiplication sign 215)
    move up by 32, every other unit stays. *)
Definition lower_unit (c : ascii) : ascii :=
  let n := nat_of_ascii c in
  if (65 <=? n)%nat && (n <=? 90)%nat then ascii_of_nat (n + 32)
  else if (192 <=? n)%nat && (n <=? 222)%nat && negb (n =? 215)%nat
  then ascii_of_nat (n + 32)
  else c.

(** [String.prototype.toLowerCase]. *)
Fixpoint toLowerCase (s : string) : string :=
  match s with
  | EmptyString => EmptyString
  | String c rest => String (lower_unit c) (toLowerCase rest)
  end.

End JsText.

(* ===================================================================== *)
(** ** The card ([TaskCard]) and the badges of the detail header *)
(* ===================================================================== *)

Module Card.

(** [priorityBadge(value)]; [None] is a missing prop. *)
Definition priorityBadge (value : option string) : string :=
  if negb (Js.truthy_str value) then "bg-muted text-muted-foreground"
  else
    match value with
    | None => "bg-muted text-muted-foreground"
    | Some v =>
        let normalized := JsText.toLowerCase v in
        if String.eqb normalized "critical"
        then "bg-priority-critical-bg text-priority-critical-fg"
        else if String.eqb normalized "high"
        then "bg-priority-high-bg text-priority-high-fg"
        else if String.eqb normalized "medium"
        then "bg-priority-medium-bg text-priority-medium-fg"
        else if String.eqb normalized "low"
        then "bg-priority-low-bg text-priority-low-fg"
        else "bg-muted text-muted-foreground"
    end.

(** [statusBorder(status)]. *)
Definition statusBorder (status : option string) : string :=
  match status with
  | Some s =>
      if String.eqb s "in_progress" then "border-l-status-in-progress"
      else if String.eqb s "review" then "border-l-status-review"
      else if String.eqb s "done" then "border-l-status-done"
      else "border-l-status-inbox"
  | None => "border-l-status-inbox"
  end.

Definition TAG_DOT_COLORS : list string :=
  [ "bg-chart-1"; "bg-chart-2"; "bg-chart-3"; "bg-chart-4"; "bg-chart-5";
    "bg-primary" ].

(** [tags.slice(0, 3)]. *)
Definition visibleTags (tags : list string) : list string := take 3 tags.

(** [TAG_DOT_COLORS[i % TAG_DOT_COLORS.length]]; [None] is [undefined]. *)
Definition tag_dot (i : nat) : option string :=
  TAG_DOT_COLORS !! (i mod length TAG_DOT_COLORS).

(** The tags a card renders, each with its position and dot colour. *)
Definition tag_chips (tags : list string) : list (string * option string) :=
  imap (fun i tag => (tag, tag_dot i)) (visibleTags tags).

(** The status badge in the header of [TaskDetail]: the class chosen by
    the chain of comparisons on [task.status]. *)
Definition detail_badge (status : string) : string :=
  if String.eqb status "done"
  then "bg-status-done-badge-bg text-status-done-badge-fg"
  else if String.eqb status "in_progress"
  then "bg-status-in-progress-badge-bg text-status-in-progress-badge-fg"
  else if String.eqb status "review"
  then "bg-status-review-badge-bg text-status-review-badge-fg"
  else "bg-status-inbox-badge-bg text-status-inbox-badge-fg".

(** The [badge] class of the board column of a status (the [columns]
    table of [TaskBoard]). *)
Definition column_badge (s : TaskStatus) : string :=
  match s with
  | inbox => "bg-status-inbox-badge-bg text-status-inbox-badge-fg"
  | in_progress =>
      "bg-status-in-progress-badge-bg text-status-in-progress-badge-fg"
  | review => "bg-status-review-badge-bg text-status-review-badge-fg"
  | done => "bg-status-done-badge-bg text-status-done-badge-fg"
  end.

End Card.

(* ===================================================================== *)
(** ** Due dates on the board ([resolveDueState]) *)
(* ===================================================================== *)

Module Due.

Record DueState : Type := mkDue {
  due : option string;     (* [None] is [undefined] *)
  isOverdue : bool
}.

(** ["Overdue · "], the middle dot being code unit 183. *)
Definition overdue_prefix : string :=
  ("Overdue " ++ String "183"%char " ")%string.

Section Resolve.

(** [new Date(text).getTime()], with [None] for [NaN], and
    [date.toLocaleDateString(undefined, { month: "short", day: "numeric" })]:
    both depend on the host. *)
Variable parse_date : string → option Z.
Variable format_date : Z → string.

(** [resolveDueState(task)] when [Date.now()] is [now]. *)
Definition resolveDueState (now : Z) (t : Task) : DueState :=
  if negb (Js.truthy_str (due_at t)) then mkDue None false
  else
    match due_at t with
    | None => mkDue None false
    | Some text =>
        match parse_date text with
        | None => mkDue None false
        | Some time =>
            let dueLabel := format_date time in
            let overdue :=
              negb (String.eqb (status t) "done") && (time <? now)%Z in
            mkDue
              (Some (if overdue then (overdue_prefix ++ dueLabel)%string
                     else dueLabel))
              overdue
        end
    end.

End Resolve.

End Due.

(* ===================================================================== *)
(** ** The PATCH route ([app/api/tasks/[id]/route.ts]) *)
(* ===================================================================== *)

Module TaskRoute.

(** [PATCH /tasks?id=eq.<id>] with [Prefer: return=representation]; the
    body is whatever JSON the caller sent. *)
Inductive Request : Type :=
| UpdateTask (filter : Store.IdFilter) (body : Js.json).

Section Route.

Context {S : Type}.
Variable fetch : Request → S → S * option Store.Response.
Variable thrown : string.

(** [PATCH /api/tasks/:id]. *)
Definition PATCH (id : Store.IdFilter) (body : Js.json) (s : S)
  : S * Api.Response :=
  let '(s', res) := fetch (UpdateTask id body) s in
  (s', Api.pass_through thrown 200 res).

End Route.

End TaskRoute.

(* ===================================================================== *)
(** ** Steps and reviews ([db/init.sql]) and the steps route *)
(* ===================================================================== *)

Module Schema.

(** [api.step_status] and [api.review_status]. *)
Inductive StepStatus : Type :=
| step_pending | step_in_progress | step_completed | step_failed
| step_skipped.
Inductive ReviewStatus : Type :=
| review_pending | review_approved | review_rejected.

(** A row of [api.task_steps]. *)
Record StepRow : Type := mkStep {
  step_id : N;                       (* BIGSERIAL PRIMARY KEY *)
  step_task_id : N;                  (* REFERENCES api.tasks(id) ON DELETE CASCADE *)
  step_title : string;
  step_description : option string;
  step_status : StepStatus;          (* DEFAULT 'pending' *)
  step_agent_note : option string;
  step_duration_ms : option Z;
  step_sort_order : Z;               (* INTEGER NOT NULL DEFAULT 0 *)
  step_created_at : Z
}.

(** A row of [api.task_reviews]. *)
Record ReviewRow : Type := mkReview {
  review_id : N;                     (* BIGSERIAL PRIMARY KEY *)
  review_task_id : N;                (* REFERENCES api.tasks(id) ON DELETE CASCADE *)
  review_reason : string;
  review_confidence : option Z;
  review_status : ReviewStatus;      (* DEFAULT 'pending' *)
  reviewer_comment : option string;
  review_created_at : Z;
  review_resolved_at : option Z
}.

(** The three tables. *)
Record DB : Type := mkDB {
  task_table : Store.DB;
  task_steps : list StepRow;
  task_reviews : list ReviewRow
}.

(** Whether some task row has this id. *)
Definition task_exists (n : N) (db : Store.DB) : bool :=
  existsb (fun r => (Store.id r =? n)%N) (Store.tasks db).

(** A request on [api.tasks] against the three tables: the table itself
    answers as before, and [ON DELETE CASCADE] removes the steps and
    reviews of every task row that a delete removes. *)
Definition serve_tasks (now : Z) (req : Store.Request) (db : DB)
  : DB * Store.Response :=
  let '(tasks', res) := Store.serve now req (task_table db) in
  match req with
  | Store.DeleteTask (Store.IdNumber n) =>
      if Store.in_bigint n
         && existsb (Store.has_id n) (Store.tasks (task_table db)) then
        (mkDB tasks'
           (List.filter (fun s => negb (Z.of_N (step_task_id s) =? n)%Z)
              (task_steps db))
           (List.filter (fun r => negb (Z.of_N (review_task_id r) =? n)%Z)
              (task_reviews db)),
         res)
      else (mkDB tasks' (task_steps db) (task_reviews db), res)
  | _ => (mkDB tasks' (task_steps db) (task_reviews db), res)
  end.

(** [GET /task_steps?task_id=eq.<id>&order=sort_order.asc]. *)
Definition sort_order_le (s1 s2 : StepRow) : Prop :=
  (step_sort_order s1 ≤ step_sort_order s2)%Z.

#[export] Instance sort_order_le_dec : RelDecision sort_order_le.
Proof. intros s1 s2. unfold sort_order_le. apply _. Defined.

Inductive StepsBody : Type :=
| StepRows (rows : list StepRow)
| StepsProblem (text : string).

Record StepsResponse : Type := mkStepsResponse {
  steps_code : nat;
  steps_body : StepsBody
}.

Definition select_steps (filter : Store.IdFilter) (db : DB) : StepsResponse :=
  match filter with
  | Store.IdNumber n =>
      if Store.in_bigint n then
        mkStepsResponse 200
          (StepRows
             (merge_sort sort_order_le
                (List.filter (fun s => (Z.of_N (step_task_id s) =? n)%Z)
                   (task_steps db))))
      else
        mkStepsResponse 400 (StepsProblem "value is out of range for type bigint")
  | Store.IdInvalid _ =>
      mkStepsResponse 400 (StepsProblem "invalid input syntax for type bigint")
  end.

(** Every step and every review belongs to a task that is there: what the
    two foreign keys guarantee. *)
Definition references_hold (db : DB) : Prop :=
  (∀ s, s ∈ task_steps db → task_exists (step_task_id s) (task_table db) = true)
  ∧ (∀ r, r ∈ task_reviews db →
          task_exists (review_task_id r) (task_table db) = true).

End Schema.

Module StepsRoute.

(** The JSON the steps route answers with. *)
Inductive Body : Type :=
| Data (rows : list Schema.StepRow)
| Error (message : string).

Record Response : Type := mkResponse {
  code : nat;
  body : Body
}.

Section Route.

Context {S : Type}.
Variable fetch : Store.IdFilter → S → S * option Schema.StepsResponse.
Variable thrown : string.

(** [GET /api/tasks/:id/steps]. *)
Definition GET (id : Store.IdFilter) (s : S) : S * Response :=
  let '(s', res) := fetch id s in
  (s',
   match res with
   | None => mkResponse 502 (Error thrown)
   | Some res =>
       if negb (Api.ok (Schema.steps_code res)) then
         mkResponse (Schema.steps_code res)
           (Error ("PostgREST error: "
                   ++ match Schema.steps_body res with
                      | Schema.StepsProblem t => t
                      | _ => ""
                      end)%string)
       else
         match Schema.steps_body res with
         | Schema.StepRows rows => mkResponse 200 (Data rows)
         | _ => mkResponse 502 (Error thrown)
         end
   end).

End Route.

(** The route and the task routes over the three tables, reachable. *)
Definition listSteps (id : Store.IdFilter) (db : Schema.DB)
  : Schema.DB * Response :=
  GET (fun id db => (db, Some (Schema.select_steps id db))) "fetch failed" id db.

Definition live (now : Z) (req : Store.Request) (db : Schema.DB)
  : Schema.DB * option Store.Response :=
  let '(db', res) := Schema.serve_tasks now req db in (db', Some res).

Definition deleteTask (now : Z) (id : Store.IdFilter) (db : Schema.DB)
  : Schema.DB * Api.Response :=
  Api.DELETE (live now) "fetch failed" id db.

Definition createTask (now : Z) (body : Store.NewTask) (db : Schema.DB)
  : Schema.DB * Api.Response :=
  Api.POST (live now) "fetch failed" body db.

End StepsRoute.

(* ===================================================================== *)
(** ** Sample data used by the examples below *)
(* ===================================================================== *)

Module Sample.

(** A task with the given id, status, [started_at], [completed_at] and
    metadata; the other fields are fixed. *)
Definition task (i : N) (st : string) (started completed : option string)
    (meta : gmap string Js.json) : Task :=
  mkTask i None "Implement X" None st "medium" None None None
    started completed [] meta "2024-01-01T00:00:00.000Z"
    "2024-01-01T00:00:00.000Z".

(** A stored row with the given id, priority and creation instant. *)
Definition row (i : N) (p : TaskPriority) (created : Z) : Store.Row :=
  Store.mkRow i None "Implement X" None inbox p None None None None None
    (Js.JArr []) (Js.JObj []) created created.

Definition dialog (t : string) : Dialog.State :=
  Dialog.mkState t "" inbox medium false None.

Definition page (ts : list Task) (sel : option Task) (open : bool)
  : Page.State :=
  Page.mkState ts false None false sel open.

End Sample.

(* ===================================================================== *)
(** ** What the primary key of [api.tasks] guarantees *)
(* ===================================================================== *)

Module Keys.

(** [id BIGSERIAL PRIMARY KEY]: no two rows share an id, and every id in
    the table was handed out by the sequence already. *)
Definition keys_ok (db : Store.DB) : Prop :=
  NoDup (Store.id <$> Store.tasks db)
  ∧ ∀ r, r ∈ Store.tasks db → (Store.id r < Store.next_id db)%N.

(** A body and a store to which an insert has nothing to object but,
    possibly, the id: the labels are labels of the enums, the sequence has
    a value left, and the title is there. *)
Definition insertable (b : Store.NewTask) (db : Store.DB) : Prop :=
  Store.status_of_body b ≠ None ∧ Store.priority_of_body b ≠ None
  ∧ (Z.of_N (Store.next_id db) ≤ Store.bigint_max)%Z
  ∧ Store.n_title b ≠ None.

End Keys.

(* ===================================================================== *)
(** ** How a proxy route relates to its upstream answer *)
(* ===================================================================== *)

Module Proxy.

(** The answer of a route passes upstream failures through: a rejected
    [fetch] gives 502 with the thrown message, an upstream status outside
    200-299 is handed on with the upstream text, and the route answers
    with a 2xx status only when the upstream did. *)
Definition passes_failures (thrown : string)
    (upstream : option Store.Response) (answer : Api.Response) : Prop :=
  (upstream = None → answer = Api.mkResponse 502 (Api.Error thrown))
  ∧ (∀ u, upstream = Some u → Api.ok (Store.code u) = false →
          answer = Api.mkResponse (Store.code u)
                     (Api.Error ("PostgREST error: "
                                 ++ Api.text (Store.body u))%string))
  ∧ (Api.ok (Api.code answer) = true →
     ∃ u, upstream = Some u ∧ Api.ok (Store.code u) = true).

End Proxy.

(* ===================================================================== *)
(** ** More sample data *)
(* ===================================================================== *)

Module Fixture.

Definition step (i task : N) (order : Z) : Schema.StepRow :=
  Schema.mkStep i task "Analyzed schema" None Schema.step_completed None None
    order 0.

Definition review (i task : N) : Schema.ReviewRow :=
  Schema.mkReview i task "Please review" None Schema.review_pending None 0 None.

(** Two tasks; task 1 has two steps and a review, task 2 one step. *)
Definition tables : Schema.DB :=
  Schema.mkDB
    (Store.mkDB [Sample.row 1 high 10; Sample.row 2 low 20] 3)
    [step 1 1 2; step 2 2 0; step 3 1 1]
    [review 1 1].

Definition two_tasks : list Task :=
  [ Sample.task 1 "inbox" None None ∅; Sample.task 2 "review" None None ∅ ].

End Fixture.


(* ===================================================================== *)
(** ** Grouping *)
(* ===================================================================== *)

Section Grouping.

Implicit Types (t : Task) (tasks : list Task) (b : Board.Buckets)
  (s : TaskStatus).

Lemma status_of_label_Some (l : string) s :
  status_of_label l = Some s ↔ l = status_label s.
Proof.
  unfold status_of_label. split.
  - repeat case_match; intros [= <-];
      match goal with H : String.eqb l _ = true |- _ =>
        apply String.eqb_eq in H; exact H end.
  - intros ->. by destruct s.
Qed.

Lemma column_of_label t s :
  status t = status_label s → Board.column_of t = s.
Proof.
  intros H. unfold Board.column_of.
  by rewrite (proj2 (status_of_label_Some _ _) H).
Qed.

Lemma well_typed_column t :
  well_typed t → status t = status_label (Board.column_of t).
Proof.
  intros [s Hs]. unfold Board.column_of. rewrite Hs.
  by apply status_of_label_Some.
Qed.

(** The callback never throws on a key that [Object.prototype] does not
    define, and files the task under [column_of]. *)
Lemma group_step_safe b t :
  status t ∉ Js.object_prototype_keys →
  Board.group_step b t = Some (Board.push (Board.column_of t) t b).
Proof.
  intros Hk. unfold Board.group_step, Board.get_member, Board.column_of.
  destruct (status_of_label (status t)); [done|].
  by rewrite bool_decide_eq_false_2.
Qed.

Lemma bucket_push s s' t b :
  Board.bucket (Board.push s' t b) s =
  Board.bucket b s ++ (if decide (s' = s) then [t] else []).
Proof. destruct s, s'; simpl; by rewrite ?app_nil_r. Qed.

(** The loop appends to each array the tasks of its column, in input
    order. *)
Lemma forEach_safe tasks b :
  Forall (λ t, status t ∉ Js.object_prototype_keys) tasks →
  ∃ b', Board.forEach tasks b = Some b' ∧
    ∀ s, Board.bucket b' s =
         Board.bucket b s ++ filter (λ t, Board.column_of t = s) tasks.
Proof.
  intros Hall. revert b.
  induction Hall as [|t tasks Ht _ IH]; intros b.
  - exists b. split; [done|]. intros s. by rewrite filter_nil, app_nil_r.
  - simpl. rewrite (group_step_safe _ _ Ht).
    destruct (IH (Board.push (Board.column_of t) t b)) as (b' & -> & Hb').
    exists b'. split; [done|]. intros s.
    rewrite Hb', bucket_push, filter_cons.
    repeat case_decide; simplify_eq; by rewrite <- ?app_assoc, ?app_nil_r.
Qed.

Lemma label_not_inherited s : status_label s ∉ Js.object_prototype_keys.
Proof. destruct s; compute_done. Qed.

(** The loop throws as soon as a task's status names an inherited
    property. *)
Lemma forEach_inherited pre t post b :
  status t ∈ Js.object_prototype_keys →
  Board.forEach (pre ++ t :: post) b = None.
Proof.
  intros Hk. revert b. induction pre as [|u pre IH]; intros b; simpl.
  - unfold Board.group_step, Board.get_member.
    assert (status_of_label (status t) = None) as ->.
    { destruct (status_of_label (status t)) as [s|] eqn:E; [|done].
      apply status_of_label_Some in E. rewrite E in Hk.
      by apply label_not_inherited in Hk. }
    by rewrite bool_decide_eq_true_2.
  - destruct (Board.group_step b u); [apply IH | done].
Qed.

Lemma well_typed_safe tasks :
  Forall well_typed tasks →
  Forall (λ t, status t ∉ Js.object_prototype_keys) tasks.
Proof.
  intros Hall. eapply Forall_impl; [exact Hall|]. intros t Ht. simpl.
  rewrite (well_typed_column _ Ht). apply label_not_inherited.
Qed.

(** Four filters over a total classification rebuild the list up to
    order. *)
Lemma four_way_partition tasks :
  filter (λ t, Board.column_of t = inbox) tasks
  ++ filter (λ t, Board.column_of t = in_progress) tasks
  ++ filter (λ t, Board.column_of t = review) tasks
  ++ filter (λ t, Board.column_of t = done) tasks
  ≡ₚ tasks.
Proof.
  induction tasks as [|t tasks IH]; [done|].
  rewrite !filter_cons.
  destruct (Board.column_of t) eqn:E; repeat case_decide; try done; simpl.
  - by f_equiv.
  - rewrite <- Permutation_middle. by f_equiv.
  - rewrite (app_assoc _ _ (t :: _)), <- Permutation_middle, <- app_assoc.
    by f_equiv.
  - rewrite !app_assoc, <- Permutation_middle, <- !app_assoc. by f_equiv.
Qed.

End Grouping.

(** C1. On every list of tasks (each with one of the four statuses) the
    board's grouping returns four buckets; each bucket is exactly the input
    tasks of that status in their input order (a stable partition, nothing
    re-sorted); the buckets together hold every input task once, no more
    and no less; and no task sits in two buckets. *)
Theorem grouped_stable_partition (tasks : list Task) :
  Forall well_typed tasks →
  ∃ b, Board.grouped tasks = Some b
    ∧ (∀ s, Board.bucket b s = filter (λ t, status t = status_label s) tasks)
    ∧ Board.bucket b inbox ++ Board.bucket b in_progress
        ++ Board.bucket b review ++ Board.bucket b done ≡ₚ tasks
    ∧ (∀ t s1 s2, t ∈ Board.bucket b s1 → t ∈ Board.bucket b s2 → s1 = s2).
Proof.
  intros Hwt.
  destruct (forEach_safe tasks Board.empty_buckets (well_typed_safe _ Hwt))
    as (b & Hb & Hs).
  assert (∀ s, Board.bucket b s = filter (λ t, Board.column_of t = s) tasks)
    as Hcol.
  { intros s. rewrite Hs. by destruct s. }
  exists b. split; [exact Hb|]. split; [|split].
  - intros s. rewrite Hcol. clear -Hwt.
    induction Hwt as [|t tasks Ht _ IH]; [done|].
    rewrite !filter_cons, IH.
    destruct (decide (Board.column_of t = s)) as [<-|Hne].
    + by rewrite decide_True by (by apply well_typed_column).
    + rewrite decide_False; [done|]. intros E. by apply column_of_label in E.
  - rewrite !Hcol. apply four_way_partition.
  - intros t s1 s2. rewrite !Hcol, !list_elem_of_filter. by intros [<- _] [<- _].
Qed.

Lemma grouped_stable_partition_witness :
  let tasks :=
    [ Sample.task 1 "review" None None ∅; Sample.task 2 "inbox" None None ∅;
      Sample.task 3 "review" None None ∅; Sample.task 4 "done" None None ∅ ] in
  Forall well_typed tasks ∧
  ∃ b, Board.grouped tasks = Some b
    ∧ (∀ s, Board.bucket b s = filter (λ t, status t = status_label s) tasks)
    ∧ Board.bucket b inbox ++ Board.bucket b in_progress
        ++ Board.bucket b review ++ Board.bucket b done ≡ₚ tasks
    ∧ (∀ t s1 s2, t ∈ Board.bucket b s1 → t ∈ Board.bucket b s2 → s1 = s2).
Proof.
  intros tasks.
  assert (Forall well_typed tasks) as Hwt.
  { repeat constructor; vm_compute; eauto. }
  split; [exact Hwt|]. exact (grouped_stable_partition tasks Hwt).
Defined.

(** C10, as the code has it. A status that is none of the four known ones
    and does not name a property that every object inherits from
    [Object.prototype] never makes grouping fail and never drops the task:
    on a list of tasks whose statuses name no inherited property, grouping
    returns buckets; every task with an unrecognised status is in the inbox
    bucket, which holds exactly the tasks whose status is inbox or
    unrecognised, in input order; each other bucket holds exactly the tasks
    of its status, in input order; and the four buckets together hold every
    input task once, no task in two of them. *)
Theorem grouped_unknown_status_fallback (tasks : list Task) :
  Forall (λ t, status t ∉ Js.object_prototype_keys) tasks →
  ∃ b, Board.grouped tasks = Some b
    ∧ (∀ t, t ∈ tasks → status_of_label (status t) = None →
            t ∈ Board.bucket b inbox)
    ∧ Board.bucket b inbox
      = filter (λ t, status_of_label (status t) ∈ [None; Some inbox]) tasks
    ∧ (∀ s, s ≠ inbox →
            Board.bucket b s = filter (λ t, status t = status_label s) tasks)
    ∧ Board.bucket b inbox ++ Board.bucket b in_progress
        ++ Board.bucket b review ++ Board.bucket b done ≡ₚ tasks
    ∧ (∀ t s1 s2, t ∈ Board.bucket b s1 → t ∈ Board.bucket b s2 → s1 = s2).
Proof.
  intros Hall.
  destruct (forEach_safe tasks Board.empty_buckets Hall) as (b & Hb & Hs).
  assert (∀ s, Board.bucket b s = filter (λ t, Board.column_of t = s) tasks)
    as Hcol.
  { intros s. rewrite Hs. by destruct s. }
  exists b. split; [exact Hb|]. split_and!.
  - intros t Ht Hnone. rewrite Hcol. apply list_elem_of_filter.
    split; [|done]. unfold Board.column_of. by rewrite Hnone.
  - rewrite Hcol. apply list_filter_iff. intros t. unfold Board.column_of.
    rewrite !elem_of_cons, elem_of_nil.
    destruct (status_of_label (status t)) as [[]|]; intuition congruence.
  - intros s Hs'. rewrite Hcol. apply list_filter_iff. intros t. split.
    + unfold Board.column_of.
      destruct (status_of_label (status t)) as [s'|] eqn:E; [|congruence].
      intros <-. by apply status_of_label_Some.
    + apply column_of_label.
  - rewrite !Hcol. apply four_way_partition.
  - intros t s1 s2. rewrite !Hcol, !list_elem_of_filter. by intros [<- _] [<- _].
Qed.

Lemma grouped_unknown_status_fallback_witness :
  let tasks :=
    [ Sample.task 1 "archived" None None ∅; Sample.task 2 "review" None None ∅;
      Sample.task 3 "inbox" None None ∅ ] in
  Forall (λ t, status t ∉ Js.object_prototype_keys) tasks
  ∧ ∃ b, Board.grouped tasks = Some b
      ∧ Sample.task 1 "archived" None None ∅ ∈ Board.bucket b inbox.
Proof.
  intros tasks.
  assert (Forall (λ t, status t ∉ Js.object_prototype_keys) tasks) as Hall.
  { repeat (apply Forall_cons; split; [compute_done|]). apply Forall_nil_2. }
  split; [exact Hall|].
  destruct (grouped_unknown_status_fallback tasks Hall) as (b & Hb & Hin & _).
  exists b. split; [exact Hb|]. apply Hin; [by left | reflexivity].
Defined.

(** C10, the claim as written, fails: ["constructor"] is none of the four
    known statuses, yet grouping a list that holds one task with that
    status throws instead of filing the task under inbox, because
    [buckets["constructor"]] is the function every object inherits, not
    undefined. So grouping is not total over arbitrary status values. *)
Lemma grouped_constructor_throws :
  status_of_label "constructor" = None
  ∧ Board.grouped [Sample.task 1 "constructor" None None ∅] = None
  ∧ ¬ (∀ tasks : list Task, ∃ b,
         Board.grouped tasks = Some b
         ∧ ∀ t, t ∈ tasks → status_of_label (status t) = None →
                t ∈ Board.bucket b inbox).
Proof.
  split; [reflexivity|]. split; [reflexivity|].
  intros Htotal.
  destruct (Htotal [Sample.task 1 "constructor" None None ∅]) as (b & Hb & _).
  discriminate Hb.
Qed.

(* ===================================================================== *)
(** ** Review sub-filters *)
(* ===================================================================== *)

Section ReviewFilter.

Implicit Types (t : Task) (l : list Task) (rb : Board.ReviewBucket).

(** [Array.prototype.filter] with a boolean callback, in stdpp's terms. *)
Lemma List_filter_stdpp {A} (f : A → bool) (l : list A) :
  List.filter f l = filter (λ x, f x = true) l.
Proof.
  induction l as [|x l IH]; [done|]. simpl. rewrite filter_cons, IH.
  destruct (f x); by case_decide.
Qed.

Lemma filteredTasks_review rb l :
  Board.filteredTasks review rb l = filter (λ t, Board.keep rb t = true) l.
Proof.
  destruct rb; simpl; rewrite <- ?List_filter_stdpp; [|done..].
  induction l as [|t l IH]; [done|]. simpl. by f_equal.
Qed.

(** A falsy [review_reason] is a missing one or a falsy value. *)
Lemma falsy_reason t :
  Js.truthy_prop (Board.review_reason t) = false ↔
  Board.review_reason t = None
  ∨ ∃ v, Board.review_reason t = Some v ∧ Js.truthy v = false.
Proof.
  destruct (Board.review_reason t) as [v|]; simpl.
  - split; [intros Hv; right; by exists v|].
    intros [|(v' & [= <-] & Hv)]; done.
  - split; [by left | done].
Qed.

(** The reducer counts the two sub-buckets and leaves [all] alone. *)
Lemma fold_count_step l (n a k : nat) :
  fold_left Board.count_step l (Board.mkCounts n a k) =
  Board.mkCounts n
    (a + length (Board.filteredTasks review Board.approval_needed l))
    (k + length (Board.filteredTasks review Board.blocked l)).
Proof.
  revert a k. induction l as [|t l IH]; intros a k; simpl.
  - f_equal; lia.
  - unfold Board.count_step at 2. simpl.
    destruct (Js.truthy_prop (Board.review_reason t)); simpl;
      rewrite IH; f_equal; simpl; lia.
Qed.

End ReviewFilter.

(** C3, as the code has it. Within the review column a task is shown under
    approval_needed exactly when its [metadata.review_reason] is truthy, and
    under blocked exactly when it is missing or falsy ([null], [false], [0]
    or the empty string); every review task is under exactly one of the
    two; the all view is the whole review bucket and its count is the
    bucket's length whichever sub-filter is selected; the classification
    depends on [metadata] alone and only selects among the column's tasks,
    in their order. *)
Theorem review_sub_buckets (b : Board.Buckets) (st : Board.State) :
  let columnTasks := Board.bucket b review in
  let shown rb := Board.filteredTasks review rb columnTasks in
  (∀ t, t ∈ shown Board.approval_needed ↔
        t ∈ columnTasks ∧ Js.truthy_prop (Board.review_reason t) = true)
  ∧ (∀ t, t ∈ shown Board.blocked ↔
          t ∈ columnTasks ∧
          (Board.review_reason t = None
           ∨ ∃ v, Board.review_reason t = Some v ∧ Js.truthy v = false))
  ∧ (∀ t, t ∈ columnTasks →
          ((t ∈ shown Board.approval_needed) ∧ (t ∉ shown Board.blocked))
          ∨ ((t ∉ shown Board.approval_needed) ∧ (t ∈ shown Board.blocked)))
  ∧ shown Board.all = columnTasks
  ∧ fst (Board.column_view b st review) =
      Some (Board.mkCounts (length columnTasks)
              (length (shown Board.approval_needed))
              (length (shown Board.blocked)))
  ∧ (∀ rb t1 t2, metadata t1 = metadata t2 → Board.keep rb t1 = Board.keep rb t2)
  ∧ (∀ rb, sublist (shown rb) columnTasks).
Proof.
  intros columnTasks shown. subst shown. cbv beta.
  assert (∀ t, t ∈ Board.filteredTasks review Board.approval_needed columnTasks
               ↔ t ∈ columnTasks ∧ Js.truthy_prop (Board.review_reason t) = true)
    as Happ.
  { intros t. rewrite filteredTasks_review, list_elem_of_filter. simpl. tauto. }
  assert (∀ t, t ∈ Board.filteredTasks review Board.blocked columnTasks
               ↔ t ∈ columnTasks ∧ Js.truthy_prop (Board.review_reason t) = false)
    as Hblk.
  { intros t. rewrite filteredTasks_review, list_elem_of_filter. simpl.
    rewrite negb_true_iff. tauto. }
  split_and!.
  - exact Happ.
  - intros t. rewrite Hblk, falsy_reason. done.
  - intros t Ht. rewrite !Happ, !Hblk.
    destruct (Js.truthy_prop (Board.review_reason t)); [left | right];
      split; try tauto; intros [_ ?]; done.
  - done.
  - unfold Board.column_view, Board.reviewCounts. cbn [fst].
    by rewrite fold_count_step.
  - intros rb t1 t2 Hm. unfold Board.keep, Board.review_reason. by rewrite Hm.
  - intros rb. rewrite filteredTasks_review. apply sublist_filter.
Qed.

(** C3, the claim as written, fails: a review task whose
    [metadata.review_reason] is present but empty is shown under blocked
    (and not under approval_needed). *)
Lemma blocked_holds_present_reason :
  let t := Sample.task 1 "review" None None {[ "review_reason" := Js.JStr "" ]} in
  Board.review_reason t = Some (Js.JStr "")
  ∧ Board.filteredTasks review Board.blocked [t] = [t]
  ∧ Board.filteredTasks review Board.approval_needed [t] = [].
Proof. repeat split. Qed.

(* ===================================================================== *)
(** ** Drops and moves *)
(* ===================================================================== *)

(** C4. A drop whose payload status is the target column's own status makes
    no call to [onTaskMove], so the page sends no request and keeps its
    state: tasks, grouping and the selected review sub-filter are what they
    were, and the drop only clears the drag markers. Dragging a card and
    dropping it on the column it is in leaves page and board exactly as
    they were before the drag. And whenever [handleDrop] does call
    [onTaskMove], the payload status differs from the column's. *)
Theorem drop_same_status_noop (column : TaskStatus) (tid : option string)
    (ps now_local now_body : string) (patch_threw : bool)
    (bs : Board.State) (s : Page.State) :
  ps = status_label column →
  Board.handleDrop false column (Board.Payload tid (Some ps)) bs
    = (Board.mkState None None (Board.reviewBucket bs), [])
  ∧ Page.drop column (Board.Payload tid (Some ps)) now_local now_body
      patch_threw bs s
    = (Board.mkState None None (Board.reviewBucket bs), s, [])
  ∧ (∀ t, status t = ps →
       Page.drag_and_drop t column now_local now_body patch_threw
         (Board.mkState None None (Board.reviewBucket bs)) s
       = (Board.mkState None None (Board.reviewBucket bs), s, []))
  ∧ (∀ readOnly data st call,
       call ∈ (Board.handleDrop readOnly column data st).2 →
       ∃ taskId source,
         data = Board.Payload (Some taskId) (Some source)
         ∧ source ≠ status_label column ∧ call = (taskId, column)).
Proof.
  intros ->.
  assert (∀ tid bs, Board.handleDrop false column
            (Board.Payload tid (Some (status_label column))) bs
          = (Board.mkState None None (Board.reviewBucket bs), [])) as Hdrop.
  { clear. intros tid bs. unfold Board.handleDrop.
    destruct (negb (Js.truthy_str tid) || negb _); [done|].
    destruct tid; [|done]. by rewrite String.eqb_refl. }
  split_and!.
  - apply Hdrop.
  - unfold Page.drop. by rewrite Hdrop.
  - intros t Ht. unfold Page.drag_and_drop, Page.drop, Board.handleDragStart.
    by rewrite Ht, Hdrop.
  - intros readOnly data st call. unfold Board.handleDrop.
    destruct readOnly; [by intros ?%elem_of_nil|].
    destruct data as [| |taskId source]; try by intros ?%elem_of_nil.
    destruct (negb (Js.truthy_str taskId) || negb _); [by intros ?%elem_of_nil|].
    destruct taskId as [taskId|], source as [source|];
      try by intros ?%elem_of_nil.
    destruct (String.eqb source (status_label column)) eqn:E;
      [by intros ?%elem_of_nil|].
    intros ->%list_elem_of_singleton. exists taskId, source.
    by apply String.eqb_neq in E.
Qed.

Lemma drop_same_status_noop_witness :
  let t := Sample.task 7 "review" None None ∅ in
  let idle := Board.mkState None None Board.blocked in
  let s := Sample.page [t] None false in
  "review" = status_label review
  ∧ Page.drop review (Board.Payload (Some "7") (Some "review")) "now" "now"
      false (Board.mkState (Some "7") (Some review) Board.blocked) s
    = (idle, s, [])
  ∧ Page.drag_and_drop t review "now" "now" false idle s = (idle, s, []).
Proof.
  intros t idle s. split; [done|].
  destruct (drop_same_status_noop review (Some "7") "review" "now" "now" false
              (Board.mkState (Some "7") (Some review) Board.blocked) s eq_refl)
    as (_ & Hdrop & Hdrag & _).
  split; [exact Hdrop | exact (Hdrag t eq_refl)].
Defined.

Section Moves.

Implicit Types (t : Task) (s : Page.State).

Lemma patch_body_in_progress now :
  Page.patch_body "in_progress" now
  = <[ "started_at" := now ]> {[ "status" := "in_progress" ]}.
Proof. reflexivity. Qed.

(** What the request body says about [completed_at]: the clock reading
    on a move into done, nothing otherwise. *)
Lemma patch_body_completed_at newStatus now :
  Page.patch_body newStatus now !! "completed_at"
  = if String.eqb newStatus "done" then Some now else None.
Proof.
  unfold Page.patch_body.
  destruct (String.eqb newStatus "done").
  - by rewrite lookup_insert_eq.
  - destruct (String.eqb newStatus "in_progress");
      by rewrite ?lookup_insert_ne, lookup_singleton_ne.
Qed.

Lemma optimistic_completed_at taskId newStatus now t :
  completed_at (Page.optimistic taskId newStatus now t)
  = if String.eqb (Js.number_toString (id t)) taskId && String.eqb newStatus "done"
    then Some now else completed_at t.
Proof.
  unfold Page.optimistic.
  destruct (String.eqb (Js.number_toString (id t)) taskId); [|done].
  by destruct (String.eqb newStatus "done").
Qed.

End Moves.

(** C2. For a task that already has a [started_at], a move into in_progress
    keeps that value in the optimistic local state, but the PATCH sent to
    the repository carries [started_at] set to the current time all the
    same. *)
Theorem move_patch_overwrites_started_at (t : Task)
    (old now_local now_body : string) (patch_threw : bool) (s : Page.State) :
  started_at t = Some old → old ≠ "" →
  let taskId := Js.number_toString (id t) in
  started_at (Page.optimistic taskId "in_progress" now_local t) = Some old
  ∧ (Page.handleTaskMove taskId "in_progress" now_local now_body patch_threw s).2
    = Page.PatchTask taskId (Page.patch_body "in_progress" now_body)
        :: (if patch_threw then [Page.GetTasks] else [])
  ∧ Page.patch_body "in_progress" now_body !! "started_at" = Some now_body.
Proof.
  intros Hold Hne taskId. split_and!.
  - unfold Page.optimistic. subst taskId. rewrite String.eqb_refl, Hold. simpl.
    apply String.eqb_neq in Hne. by rewrite Hne.
  - done.
  - by rewrite patch_body_in_progress, lookup_insert_eq.
Qed.

Lemma move_patch_overwrites_started_at_witness :
  let t := Sample.task 1 "review" (Some "2024-01-01T00:00:00.000Z") None ∅ in
  let s := Sample.page [t] None false in
  started_at t = Some "2024-01-01T00:00:00.000Z"
  ∧ started_at (Page.optimistic "1" "in_progress" "2024-02-02T00:00:00.000Z" t)
    = Some "2024-01-01T00:00:00.000Z"
  ∧ Page.patch_body "in_progress" "2024-02-02T00:00:00.000Z" !! "started_at"
    = Some "2024-02-02T00:00:00.000Z".
Proof.
  intros t s. split; [done|].
  destruct (move_patch_overwrites_started_at t "2024-01-01T00:00:00.000Z"
              "2024-02-02T00:00:00.000Z" "2024-02-02T00:00:00.000Z" false s
              eq_refl ltac:(discriminate)) as (H1 & _ & H3).
  split; [exact H1 | exact H3].
Defined.

(** C8. A task whose [completed_at] is set keeps it set through every move:
    the optimistic update leaves it as it was unless the move is into done
    (which stamps the current time); the PATCH body of a move mentions
    [completed_at] only on a move into done, and then with the current
    time; the body sent by the detail panel never mentions it. Nothing the
    board, the page or the panel sends or applies puts [null] there. *)
Theorem completed_at_never_cleared (t : Task)
    (c taskId newStatus now_local now_body : string) (patch_threw : bool)
    (s : Page.State) (shown : option Task) (patch_ok : bool) :
  completed_at t = Some c →
  is_Some (completed_at (Page.optimistic taskId newStatus now_local t))
  ∧ (newStatus ≠ "done" →
     completed_at (Page.optimistic taskId newStatus now_local t) = Some c)
  ∧ (∀ i u, Page.tasks s !! i = Some u → is_Some (completed_at u) →
       ∃ u', Page.tasks
               (Page.handleTaskMove taskId newStatus now_local now_body
                  patch_threw s).1 !! i = Some u'
             ∧ is_Some (completed_at u'))
  ∧ (∀ tid body,
       Page.PatchTask tid body
         ∈ (Page.handleTaskMove taskId newStatus now_local now_body
              patch_threw s).2 →
       body !! "completed_at"
       = if String.eqb newStatus "done" then Some now_body else None)
  ∧ (∀ tid body,
       Page.PatchTask tid body
         ∈ Detail.handleUpdateStatus shown newStatus patch_ok →
       body !! "completed_at" = None).
Proof.
  intros Hc. split_and!.
  - rewrite optimistic_completed_at, Hc. by case_match.
  - intros Hne%String.eqb_neq.
    by rewrite optimistic_completed_at, Hne, andb_false_r.
  - intros i u Hu Hsome. simpl. rewrite list_lookup_fmap, Hu. simpl.
    eexists; split; [done|]. rewrite optimistic_completed_at.
    by case_match.
  - intros tid body. simpl. rewrite elem_of_cons.
    intros [[= _ ->]|Hin]; [apply patch_body_completed_at|].
    destruct patch_threw; [|by apply elem_of_nil in Hin].
    by apply list_elem_of_singleton in Hin.
  - intros tid body. unfold Detail.handleUpdateStatus.
    destruct shown; [|by intros ?%elem_of_nil].
    rewrite elem_of_cons. intros [[= _ ->]|Hin]; [by rewrite lookup_singleton_ne|].
    destruct patch_ok; [|by apply elem_of_nil in Hin].
    by apply list_elem_of_singleton in Hin.
Qed.

Lemma completed_at_never_cleared_witness :
  let t := Sample.task 1 "done" None (Some "2024-01-01T00:00:00.000Z") ∅ in
  completed_at t = Some "2024-01-01T00:00:00.000Z"
  ∧ completed_at (Page.optimistic "1" "inbox" "2024-02-02T00:00:00.000Z" t)
    = Some "2024-01-01T00:00:00.000Z".
Proof.
  intros t. split; [done|].
  exact (proj1 (proj2
    (completed_at_never_cleared t "2024-01-01T00:00:00.000Z" "1" "inbox"
       "2024-02-02T00:00:00.000Z" "2024-02-02T00:00:00.000Z" false
       (Sample.page [t] None false) None true eq_refl)) ltac:(discriminate)).
Defined.

(* ===================================================================== *)
(** ** Refresh and the open detail panel *)
(* ===================================================================== *)

(** C9, as the code has it. When a refresh returns a list that no longer
    holds the id of the task shown in the open detail panel, the list is
    replaced and the error cleared, and the panel is left alone: it stays
    open and keeps showing the task it had. *)
Theorem refresh_keeps_detail_of_missing_task (s : Page.State) (t : Task)
    (data : list Task) :
  Page.selectedTask s = Some t → Page.showDetail s = true →
  (∀ u, u ∈ data → id u ≠ id t) →
  let s' := Page.fetchTasks (Page.Fetched data) s in
  Page.tasks s' = data
  ∧ Page.error s' = None
  ∧ Page.selectedTask s' = Some t
  ∧ Page.showDetail s' = true
  ∧ Page.detail_open s' = true.
Proof.
  intros Hsel Hopen Hgone s'.
  assert (Page.selectedTask s' = Some t) as Hsel'.
  { subst s'. unfold Page.fetchTasks, Page.selectedTaskId. rewrite Hsel. simpl.
    destruct (negb (id t =? 0)%N); [|done].
    destruct (List.find _ data) as [u|] eqn:Hfind; [|done].
    apply find_some in Hfind as [Hin Heq].
    apply N.eqb_eq in Heq. apply list_elem_of_In in Hin. by apply Hgone in Hin. }
  split_and!; try done.
  unfold Page.detail_open. rewrite Hsel'. subst s'. simpl. by rewrite Hopen.
Qed.

Lemma refresh_keeps_detail_of_missing_task_witness :
  let t := Sample.task 1 "inbox" None None ∅ in
  let u := Sample.task 2 "inbox" None None ∅ in
  let s := Sample.page [t; u] (Some t) true in
  let s' := Page.fetchTasks (Page.Fetched [u]) s in
  (∀ v, v ∈ [u] → id v ≠ id t)
  ∧ Page.tasks s' = [u]
  ∧ Page.selectedTask s' = Some t
  ∧ Page.detail_open s' = true.
Proof.
  intros t u s s'.
  assert (∀ v, v ∈ [u] → id v ≠ id t) as Hgone.
  { intros v Hv. apply list_elem_of_singleton in Hv. subst v. discriminate. }
  split; [exact Hgone|].
  destruct (refresh_keeps_detail_of_missing_task s t [u] eq_refl eq_refl Hgone)
    as (H1 & _ & H3 & _ & H5).
  split; [exact H1|]. split; [exact H3 | exact H5].
Defined.

(** C9, the claim as written, fails: the task shown in the open panel is
    gone from the refreshed list, and after the refresh the panel is still
    open and still shows it. *)
Lemma stale_detail_stays_open :
  let t := Sample.task 1 "inbox" None None ∅ in
  let s := Sample.page [t] (Some t) true in
  let s' := Page.fetchTasks (Page.Fetched []) s in
  Page.detail_open s = true
  ∧ Page.tasks s' = []
  ∧ Page.detail_open s' = true
  ∧ Page.selectedTask s' = Some t.
Proof. vm_compute. repeat split. Qed.

(* ===================================================================== *)
(** ** Listing *)
(* ===================================================================== *)

Section Listing.

Implicit Types (r : Store.Row) (db : Store.DB).

(** The order the route asks for is [Api.listed_before]. *)
Lemma before_tasks_order r1 r2 :
  Store.before Api.tasks_order r1 r2 ↔ Api.listed_before r1 r2.
Proof.
  unfold Store.before, Api.tasks_order, Api.listed_before. simpl.
  destruct (Z.compare_spec (Z.of_nat (Store.priority_rank (Store.priority r1)))
              (Z.of_nat (Store.priority_rank (Store.priority r2))))
    as [Hp|Hp|Hp];
  [destruct (Z.compare_spec (Store.created_at r1) (Store.created_at r2))
     as [Hc|Hc|Hc] | |];
  split; intros H; try done; try lia;
    first [ right; split; lia | left; lia | idtac ].
Qed.

Lemma before_total : Total (Store.before Api.tasks_order).
Proof.
  intros r1 r2. rewrite !before_tasks_order. unfold Api.listed_before. lia.
Qed.

Lemma before_trans : Transitive (Store.before Api.tasks_order).
Proof.
  intros r1 r2 r3. rewrite !before_tasks_order. unfold Api.listed_before. lia.
Qed.

Lemma before_sorted_listed (rows : list Store.Row) :
  StronglySorted (Store.before Api.tasks_order) rows →
  StronglySorted Api.listed_before rows.
Proof.
  induction 1 as [|r rows _ IH Hall]; constructor; [done|].
  eapply Forall_impl; [exact Hall|]. intros r'. apply before_tasks_order.
Qed.

End Listing.

(** C7. Whatever the table holds, listing answers 200 with all of its rows,
    each once, ordered by priority descending (critical before high before
    medium before low) and, within equal priority, by creation time
    descending. In particular four rows of priorities low, critical,
    medium, critical created at increasing instants come back as the later
    critical, the earlier critical, the medium, the low. *)
Theorem listTasks_ordered (now : Z) (db : Store.DB) :
  (∃ rows,
     Api.listTasks now db = (db, Api.mkResponse 200 (Api.Data rows))
     ∧ rows ≡ₚ Store.tasks db
     ∧ StronglySorted Api.listed_before rows)
  ∧ (Store.priority_rank low < Store.priority_rank medium
     < Store.priority_rank high)%nat
  ∧ (Store.priority_rank high < Store.priority_rank critical)%nat
  ∧ (∀ (i1 i2 i3 i4 : N) (t1 t2 t3 t4 : Z) (n : N),
       (t1 < t2)%Z → (t2 < t3)%Z → (t3 < t4)%Z →
       Api.listTasks now
         (Store.mkDB [ Sample.row i1 low t1; Sample.row i2 critical t2;
                       Sample.row i3 medium t3; Sample.row i4 critical t4 ] n)
       = (Store.mkDB [ Sample.row i1 low t1; Sample.row i2 critical t2;
                       Sample.row i3 medium t3; Sample.row i4 critical t4 ] n,
          Api.mkResponse 200
            (Api.Data [ Sample.row i4 critical t4; Sample.row i2 critical t2;
                        Sample.row i3 medium t3; Sample.row i1 low t1 ]))).
Proof.
  split_and!.
  - exists (merge_sort (Store.before Api.tasks_order) (Store.tasks db)).
    split_and!.
    + done.
    + apply merge_sort_Permutation.
    + apply before_sorted_listed, StronglySorted_merge_sort;
        [apply before_trans | apply before_total].
  - vm_compute. lia.
  - vm_compute. lia.
  - vm_compute. lia.
  - intros i1 i2 i3 i4 t1 t2 t3 t4 n H12 H23 H34.
    unfold Api.listTasks, Api.GET, Api.live, Store.serve. simpl.
    do 3 f_equal. unfold merge_sort. simpl.
    case_decide as Hb; [|done].
    apply before_tasks_order in Hb. unfold Api.listed_before in Hb. simpl in Hb. lia.
Qed.

Lemma listTasks_ordered_witness :
  Api.listTasks 0
    (Store.mkDB [ Sample.row 1 low 10; Sample.row 2 critical 20;
                  Sample.row 3 medium 30; Sample.row 4 critical 40 ] 5)
  = (Store.mkDB [ Sample.row 1 low 10; Sample.row 2 critical 20;
                  Sample.row 3 medium 30; Sample.row 4 critical 40 ] 5,
     Api.mkResponse 200
       (Api.Data [ Sample.row 4 critical 40; Sample.row 2 critical 20;
                   Sample.row 3 medium 30; Sample.row 1 low 10 ])).
Proof.
  apply (listTasks_ordered 0 (Store.mkDB [] 1)); lia.
Defined.

(* ===================================================================== *)
(** ** Creating *)
(* ===================================================================== *)

Section Trim.

Implicit Types (s acc : string).

Lemma trim_start_blank s :
  Js.trim_start s = "" ↔ Js.whitespace_only s = true.
Proof.
  induction s as [|c s IH]; simpl; [done|].
  destruct (Js.is_white_space c); simpl; [exact IH | done].
Qed.

(** Trimming the start leaves a blank string blank and any other string
    not blank. *)
Lemma whitespace_only_trim_start s :
  Js.whitespace_only (Js.trim_start s) = Js.whitespace_only s.
Proof.
  induction s as [|c s IH]; simpl; [done|].
  destruct (Js.is_white_space c) eqn:E; simpl; [exact IH | by rewrite E].
Qed.

Lemma whitespace_only_rev_app s acc :
  Js.whitespace_only (String.rev_app s acc)
  = Js.whitespace_only s && Js.whitespace_only acc.
Proof.
  revert acc. induction s as [|c s IH]; intros acc; simpl; [done|].
  rewrite IH. simpl. destruct (Js.is_white_space c), (Js.whitespace_only s); done.
Qed.

Lemma rev_app_empty s acc : String.rev_app s acc = "" ↔ s = "" ∧ acc = "".
Proof.
  revert acc. induction s as [|c s IH]; intros acc; simpl; [tauto|].
  rewrite IH. split; intros [? ?]; discriminate.
Qed.

Lemma trim_end_blank s :
  Js.trim_end s = "" ↔ Js.whitespace_only s = true.
Proof.
  unfold Js.trim_end, String.rev.
  rewrite rev_app_empty, trim_start_blank, whitespace_only_rev_app.
  rewrite andb_true_r. tauto.
Qed.

(** The guard [!title.trim()] holds exactly for the blank titles. *)
Lemma trim_blank s : Js.trim s = "" ↔ Js.whitespace_only s = true.
Proof.
  unfold Js.trim. by rewrite trim_end_blank, whitespace_only_trim_start.
Qed.

End Trim.

(** C5, as the code has it. A submit of the create dialog whose title is
    empty or white space only is dropped by the dialog: nothing is posted,
    the server state and the dialog state (its error message included) are
    what they were, and [onCreated] is not called; in front of the proxy
    and the store no row is created. Any other title is posted, trimmed. *)
Theorem submit_blank_title_sends_nothing {S : Type}
    (post : Store.NewTask → S → S * option Api.Response) (thrown : string)
    (s : Dialog.State) (srv : S) (now : Z) (db : Store.DB) :
  Js.whitespace_only (Dialog.title s) = true →
  Dialog.handleSubmit post thrown s srv = (srv, s, [], false)
  ∧ Dialog.submit now s db = (db, s, [], false)
  ∧ (∀ s', Js.whitespace_only (Dialog.title s') = false →
       (Dialog.handleSubmit post thrown s' srv).1.2 = [Dialog.request_body s']
       ∧ Store.n_title (Dialog.request_body s') = Some (Js.trim (Dialog.title s'))
       ∧ Js.trim (Dialog.title s') ≠ "").
Proof.
  intros Hblank. apply trim_blank in Hblank as Htrim. split_and!.
  - unfold Dialog.handleSubmit. by rewrite Htrim.
  - unfold Dialog.submit, Dialog.handleSubmit. by rewrite Htrim.
  - intros s' Hs'.
    assert (Js.trim (Dialog.title s') ≠ "") as Hne.
    { intros E%trim_blank. congruence. }
    split_and!; [|done..].
    unfold Dialog.handleSubmit. apply String.eqb_neq in Hne. rewrite Hne.
    destruct (post _ srv) as [srv' [res|]]; [|done].
    by destruct (Api.ok _).
Qed.

Lemma submit_blank_title_sends_nothing_witness :
  let s := Sample.dialog "   " in
  let db := Store.mkDB [] 1 in
  Js.whitespace_only (Dialog.title s) = true
  ∧ Dialog.submit 0 s db = (db, s, [], false).
Proof.
  intros s db. split; [reflexivity|].
  exact (proj1 (proj2
    (submit_blank_title_sends_nothing
       (fun body db => let '(db', r) := Api.createTask 0 body db in (db', Some r))
       "fetch failed" s db 0 db eq_refl))).
Defined.

(** C5, the claim as written, fails: a create request with an empty title
    that reaches the API is forwarded, answered 201, and the row is
    stored. *)
Lemma createTask_stores_empty_title :
  let body := Store.mkNewTask (Some "") None None None in
  let row :=
    Store.mkRow 1 None "" None inbox medium None None None None None
      (Js.JArr []) (Js.JObj []) 0 0 in
  Api.createTask 0 body (Store.mkDB [] 1)
  = (Store.mkDB [row] 2, Api.mkResponse 201 (Api.Data [row])).
Proof. reflexivity. Qed.

(* ===================================================================== *)
(** ** Deleting *)
(* ===================================================================== *)

Section Deleting.

(** A delete by an id that fits a [bigint]: the rows with that id go, the
    answer is 200. *)
Lemma deleteTask_in_range (now n : Z) (db : Store.DB) :
  Store.in_bigint n = true →
  Api.deleteTask now (Store.IdNumber n) db
  = (Store.mkDB (filter (λ r, Z.of_N (Store.id r) ≠ n) (Store.tasks db))
       (Store.next_id db),
     Api.mkResponse 200 Api.OkTrue).
Proof.
  intros Hn. unfold Api.deleteTask, Api.DELETE, Api.live, Store.serve.
  rewrite Hn. simpl. do 2 f_equal. rewrite List_filter_stdpp.
  apply list_filter_iff. intros r. unfold Store.has_id.
  rewrite negb_true_iff. apply Z.eqb_neq.
Qed.

(** A delete by an integer that fits no [bigint] is refused. *)
Lemma deleteTask_out_of_range (now n : Z) (db : Store.DB) :
  Store.in_bigint n = false →
  Api.deleteTask now (Store.IdNumber n) db
  = (db,
     Api.mkResponse 400
       (Api.Error "PostgREST error: value is out of range for type bigint")).
Proof.
  intros Hn. unfold Api.deleteTask, Api.DELETE, Api.live, Store.serve.
  by rewrite Hn.
Qed.

Lemma filter_all {A} (P : A → Prop) `{∀ x, Decision (P x)} (l : list A) :
  (∀ x, x ∈ l → P x) → filter P l = l.
Proof.
  induction l as [|x l IH]; intros Hall; [done|].
  rewrite filter_cons_True by (apply Hall; by left).
  f_equal. apply IH. intros y Hy. apply Hall. by right.
Qed.

End Deleting.

(** C6, as the code has it. Deleting by an id that is a valid [bigint]
    always answers 200 with [{ ok: true }]: the rows with that id are
    removed and every other row is kept, in order; when no row has the id
    the table is left as it was and the answer is the same. An integer
    outside the range of [bigint] is answered 400 and changes nothing. *)
Theorem deleteTask_always_ok (now : Z) (n : Z) (db : Store.DB) :
  Store.in_bigint n = true →
  (Api.deleteTask now (Store.IdNumber n) db).2 = Api.mkResponse 200 Api.OkTrue
  ∧ Store.tasks (Api.deleteTask now (Store.IdNumber n) db).1
    = filter (λ r, Z.of_N (Store.id r) ≠ n) (Store.tasks db)
  ∧ (∀ r, r ∈ Store.tasks (Api.deleteTask now (Store.IdNumber n) db).1 →
          Z.of_N (Store.id r) ≠ n)
  ∧ ((∀ r, r ∈ Store.tasks db → Z.of_N (Store.id r) ≠ n) →
     (Api.deleteTask now (Store.IdNumber n) db).1 = db)
  ∧ (∀ m, Store.in_bigint m = false →
       Api.code (Api.deleteTask now (Store.IdNumber m) db).2 = 400
       ∧ (Api.deleteTask now (Store.IdNumber m) db).1 = db).
Proof.
  intros Hn. rewrite (deleteTask_in_range now n db Hn). simpl. split_and!.
  - done.
  - done.
  - intros r. rewrite list_elem_of_filter. tauto.
  - intros Hnone. rewrite (filter_all _ _ Hnone). by destruct db.
  - intros m Hm. by rewrite (deleteTask_out_of_range now m db Hm).
Qed.

Lemma deleteTask_always_ok_witness :
  let db := Store.mkDB [Sample.row 1 high 10] 2 in
  Store.in_bigint 7 = true
  ∧ (∀ r, r ∈ Store.tasks db → Z.of_N (Store.id r) ≠ 7%Z)
  ∧ (Api.deleteTask 0 (Store.IdNumber 7) db).1 = db.
Proof.
  intros db.
  assert (∀ r, r ∈ Store.tasks db → Z.of_N (Store.id r) ≠ 7%Z) as Hnone.
  { intros r Hr. apply list_elem_of_singleton in Hr. subst r. discriminate. }
  split; [reflexivity|]. split; [exact Hnone|].
  exact (proj1 (proj2 (proj2 (proj2 (deleteTask_always_ok 0 7 db eq_refl))))
           Hnone).
Defined.

(** C6, the claim as written, fails: deleting id 7 from a table that only
    holds id 1 is answered 200 [{ ok: true }], not with an error, and the
    table is unchanged. *)
Lemma deleteTask_missing_id_reports_ok :
  let db := Store.mkDB [Sample.row 1 high 10] 2 in
  Api.deleteTask 0 (Store.IdNumber 7) db
  = (db, Api.mkResponse 200 Api.OkTrue).
Proof. reflexivity. Qed.

(* ===================================================================== *)
(** ** More on the board *)
(* ===================================================================== *)

Section BoardExtras.

Implicit Types (t : Task) (tasks : list Task) (b : Board.Buckets)
  (s : TaskStatus).

(** Printing an id never yields the empty string. *)
Lemma pretty_N_go_nonempty (x : N) (acc : string) :
  acc ≠ "" → pretty_N_go x acc ≠ "".
Proof.
  revert acc. induction (N.lt_wf_0 x) as [x _ IH]; intros acc Hacc.
  destruct (decide (x = 0%N)) as [->|Hx]; [by rewrite pretty_N_go_0|].
  rewrite pretty_N_go_step by lia. apply IH; [|done].
  apply N.div_lt; lia.
Qed.

Lemma number_toString_nonempty (n : N) : Js.number_toString n ≠ "".
Proof.
  unfold Js.number_toString, pretty, pretty_N.
  destruct (decide (n = 0%N)) as [->|Hn]; [done|].
  rewrite pretty_N_go_step by lia. by apply pretty_N_go_nonempty.
Qed.

Lemma truthy_number_toString (n : N) :
  Js.truthy_str (Some (Js.number_toString n)) = true.
Proof.
  simpl. apply negb_true_iff, String.eqb_neq, number_toString_nonempty.
Qed.

End BoardExtras.

(** X1. Grouping throws exactly when some task's status names a property
    inherited from [Object.prototype]; on every other input it returns
    buckets. *)
Theorem grouped_throws_iff (tasks : list Task) :
  Board.grouped tasks = None
  ↔ ∃ t, t ∈ tasks ∧ status t ∈ Js.object_prototype_keys.
Proof.
  split.
  - intros Hnone.
    destruct (decide (Exists (λ t, status t ∈ Js.object_prototype_keys) tasks))
      as [Hex|Hnex].
    + apply Exists_exists in Hex as (t & Ht & Hk). by exists t.
    + apply not_Exists_Forall in Hnex; [|intros t; apply _].
      destruct (forEach_safe tasks Board.empty_buckets Hnex) as (b & Hb & _).
      unfold Board.grouped in Hnone. congruence.
  - intros (t & Ht & Hk).
    apply list_elem_of_split in Ht as (pre & post & ->).
    by apply forEach_inherited.
Qed.

(** X2. Grouping is compatible with concatenation: when a list groups, so
    do its two halves, and every column of the whole is the column of the
    first half followed by the column of the second. Tasks that arrive at
    the end of the list never reorder the cards already in a column. *)
Theorem grouped_app (l1 l2 : list Task) (b : Board.Buckets) :
  Board.grouped (l1 ++ l2) = Some b →
  ∃ b1 b2, Board.grouped l1 = Some b1 ∧ Board.grouped l2 = Some b2
    ∧ ∀ s, Board.bucket b s = Board.bucket b1 s ++ Board.bucket b2 s.
Proof.
  intros Hb.
  assert (Forall (λ t, status t ∉ Js.object_prototype_keys) (l1 ++ l2)) as Hall.
  { apply Forall_forall. intros t Ht Hk.
    assert (Board.grouped (l1 ++ l2) = None) as Hnone; [|congruence].
    apply list_elem_of_split in Ht as (pre & post & ->).
    by apply forEach_inherited. }
  apply Forall_app in Hall as [H1 H2].
  destruct (forEach_safe l1 Board.empty_buckets H1) as (b1 & Hb1 & Hs1).
  destruct (forEach_safe l2 Board.empty_buckets H2) as (b2 & Hb2 & Hs2).
  destruct (forEach_safe (l1 ++ l2) Board.empty_buckets
              (proj2 (Forall_app _ _ _) (conj H1 H2))) as (b' & Hb' & Hs').
  unfold Board.grouped in Hb. rewrite Hb' in Hb. injection Hb as ->.
  exists b1, b2. split_and!; [done..|].
  intros s. rewrite Hs', Hs1, Hs2, filter_app. by destruct s.
Qed.

Lemma grouped_app_witness :
  let l1 := [ Sample.task 1 "review" None None ∅ ] in
  let l2 := Fixture.two_tasks in
  ∃ b b1 b2,
    Board.grouped (l1 ++ l2) = Some b
    ∧ Board.grouped l1 = Some b1 ∧ Board.grouped l2 = Some b2
    ∧ ∀ s, Board.bucket b s = Board.bucket b1 s ++ Board.bucket b2 s.
Proof.
  intros l1 l2. eexists.
  destruct (grouped_app l1 l2 _ eq_refl) as (b1 & b2 & H1 & H2 & H3).
  exists b1, b2. split; [reflexivity|]. split; [exact H1|]. split; [exact H2|].
  exact H3.
Defined.

(** X3. In the review column the two sub-filter counts always add up to
    the count of the all view, which is the length of the column, and the
    tasks shown under approval_needed followed by those under blocked are
    the column's tasks, each exactly once. *)
Theorem review_counts_add_up (columnTasks : list Task) :
  ∃ c, Board.reviewCounts review columnTasks = Some c
    ∧ Board.c_all c = length columnTasks
    ∧ Board.c_approval_needed c + Board.c_blocked c = Board.c_all c
    ∧ Board.filteredTasks review Board.approval_needed columnTasks
        ++ Board.filteredTasks review Board.blocked columnTasks
      ≡ₚ columnTasks.
Proof.
  assert (Board.filteredTasks review Board.approval_needed columnTasks
            ++ Board.filteredTasks review Board.blocked columnTasks
          ≡ₚ columnTasks) as Hperm.
  { induction columnTasks as [|t l IH]; [done|]. simpl in *.
    destruct (Js.truthy_prop (Board.review_reason t)); simpl.
    - by f_equiv.
    - rewrite <- Permutation_middle. by f_equiv. }
  eexists. split; [reflexivity|]. rewrite fold_count_step. simpl.
  split_and!; [done| |done].
  apply Permutation_length in Hperm. rewrite length_app in Hperm.
  simpl in Hperm. lia.
Qed.

(** X4. What a card puts into the drag payload is read back by the drop
    handler: dropping a card whose status is non-empty on a column other
    than its own calls [onTaskMove] exactly once, with the card's id as
    text and that column, whatever the board's drag markers are. *)
Theorem drag_payload_round_trip (t : Task) (column : TaskStatus)
    (st st' : Board.State) :
  status t ≠ "" → status t ≠ status_label column →
  (Board.handleDrop false column (Board.handleDragStart false t st).2 st').2
  = [(Js.number_toString (id t), column)].
Proof.
  intros Hne Hcol. unfold Board.handleDragStart, Board.handleDrop.
  cbn [snd]. rewrite truthy_number_toString. simpl.
  apply String.eqb_neq in Hne, Hcol. by rewrite Hne, Hcol.
Qed.

Lemma drag_payload_round_trip_witness :
  let t := Sample.task 7 "inbox" None None ∅ in
  let st := Board.mkState None None Board.all in
  (Board.handleDrop false review (Board.handleDragStart false t st).2 st).2
  = [("7", review)].
Proof.
  intros t st.
  exact (drag_payload_round_trip t review st st
           ltac:(discriminate) ltac:(discriminate)).
Defined.

(** X5. The column highlight follows the pointer: after a drag over a
    column that column is the active one; leaving the active column clears
    the highlight and leaving any other column keeps it; and none of the
    drag handlers touches the selected review sub-filter. *)
Theorem drag_highlight (c1 c2 : TaskStatus) (t : Task) (data : Board.DropData)
    (readOnly : bool) (st : Board.State) :
  Board.activeColumn (Board.handleDragOver false c1 st) = Some c1
  ∧ Board.activeColumn
      (Board.handleDragLeave false c2 (Board.handleDragOver false c1 st))
    = (if decide (c1 = c2) then None else Some c1)
  ∧ Board.handleDragOver false c1 (Board.handleDragOver false c1 st)
    = Board.handleDragOver false c1 st
  ∧ Board.reviewBucket (Board.handleDragOver readOnly c1 st)
    = Board.reviewBucket st
  ∧ Board.reviewBucket (Board.handleDragLeave readOnly c1 st)
    = Board.reviewBucket st
  ∧ Board.reviewBucket (Board.handleDragStart readOnly t st).1
    = Board.reviewBucket st
  ∧ Board.reviewBucket (Board.handleDrop readOnly c1 data st).1
    = Board.reviewBucket st
  ∧ Board.reviewBucket (Board.handleDragEnd st) = Board.reviewBucket st.
Proof.
  assert (Board.activeColumn (Board.handleDragOver false c1 st) = Some c1)
    as Hover.
  { unfold Board.handleDragOver. by case_bool_decide. }
  split_and!.
  - exact Hover.
  - unfold Board.handleDragLeave. rewrite Hover.
    destruct (decide (c1 = c2)) as [->|Hne].
    + by rewrite bool_decide_eq_true_2.
    + rewrite bool_decide_eq_false_2; [done|congruence].
  - unfold Board.handleDragOver at 1. by rewrite Hover, bool_decide_eq_true_2.
  - unfold Board.handleDragOver. destruct readOnly; [done|]. by case_bool_decide.
  - unfold Board.handleDragLeave. destruct readOnly; [done|]. by case_bool_decide.
  - unfold Board.handleDragStart. by destruct readOnly.
  - unfold Board.handleDrop. destruct readOnly; [done|].
    destruct data as [| |tid ps]; try done.
    destruct (negb _ || negb _); [done|].
    destruct tid, ps; try done. by case_match.
  - done.
Qed.

(* ===================================================================== *)
(** ** More on moves *)
(* ===================================================================== *)

Section MoveExtras.

Implicit Types (t u : Task) (s : Page.State).

Lemma optimistic_id taskId newStatus now t :
  id (Page.optimistic taskId newStatus now t) = id t.
Proof. unfold Page.optimistic. by case_match. Qed.

Lemma optimistic_other taskId newStatus now t :
  Js.number_toString (id t) ≠ taskId →
  Page.optimistic taskId newStatus now t = t.
Proof.
  intros Hne%String.eqb_neq. unfold Page.optimistic. by rewrite Hne.
Qed.

Lemma optimistic_status taskId newStatus now t :
  Js.number_toString (id t) = taskId →
  status (Page.optimistic taskId newStatus now t) = newStatus.
Proof.
  intros <-. unfold Page.optimistic. by rewrite String.eqb_refl.
Qed.

Lemma optimistic_twice taskId newStatus now t :
  Page.optimistic taskId newStatus now (Page.optimistic taskId newStatus now t)
  = Page.optimistic taskId newStatus now t.
Proof.
  unfold Page.optimistic.
  destruct (String.eqb (Js.number_toString (id t)) taskId) eqn:Eid;
    [|by rewrite Eid].
  cbn [id started_at completed_at]. rewrite Eid.
  destruct (String.eqb newStatus "in_progress"),
    (String.eqb newStatus "done"),
    (Js.truthy_str (started_at t)) eqn:Eset;
    cbn [andb negb]; rewrite ?Eset; try reflexivity;
    by destruct (Js.truthy_str (Some now)).
Qed.

Lemma patch_body_status newStatus now :
  Page.patch_body newStatus now !! "status" = Some newStatus.
Proof.
  unfold Page.patch_body.
  destruct (String.eqb newStatus "in_progress"), (String.eqb newStatus "done");
    by rewrite ?lookup_insert_ne, lookup_singleton_eq.
Qed.

Lemma patch_body_started_at newStatus now :
  Page.patch_body newStatus now !! "started_at"
  = if String.eqb newStatus "in_progress" then Some now else None.
Proof.
  unfold Page.patch_body.
  destruct (String.eqb newStatus "in_progress") eqn:E1.
  - apply String.eqb_eq in E1 as ->. simpl. by rewrite lookup_insert_eq.
  - destruct (String.eqb newStatus "done");
      by rewrite ?lookup_insert_ne, lookup_singleton_ne.
Qed.

End MoveExtras.

(** X6. The optimistic update is idempotent: carrying out the same move a
    second time, with the same clock reading, leaves the task list exactly
    as the first move left it. *)
Theorem move_twice_same_state (taskId newStatus now_local now_body : string)
    (threw1 threw2 : bool) (s : Page.State) :
  (Page.handleTaskMove taskId newStatus now_local now_body threw2
     (Page.handleTaskMove taskId newStatus now_local now_body threw1 s).1).1
  = (Page.handleTaskMove taskId newStatus now_local now_body threw1 s).1.
Proof.
  unfold Page.handleTaskMove. cbn [fst Page.tasks Page.isLoading Page.error
    Page.showCreate Page.selectedTask Page.showDetail].
  f_equal. rewrite <- list_fmap_compose. apply list_fmap_ext.
  intros i t _. apply optimistic_twice.
Qed.

(** X7. A move touches only the tasks whose id prints as the given task
    id: the list keeps its length and its ids in place, every other task
    is left as it is, and the task selected for the detail panel, the
    panel's visibility and the error are not updated. When no task has the
    id the state does not change at all, and the PATCH is sent all the
    same. *)
Theorem move_frame (taskId newStatus now_local now_body : string)
    (patch_threw : bool) (s : Page.State) :
  let s' :=
    (Page.handleTaskMove taskId newStatus now_local now_body patch_threw s).1 in
  length (Page.tasks s') = length (Page.tasks s)
  ∧ id <$> Page.tasks s' = id <$> Page.tasks s
  ∧ (∀ i u, Page.tasks s !! i = Some u →
            Js.number_toString (id u) ≠ taskId →
            Page.tasks s' !! i = Some u)
  ∧ Page.selectedTask s' = Page.selectedTask s
  ∧ Page.showDetail s' = Page.showDetail s
  ∧ Page.error s' = Page.error s
  ∧ ((∀ u, u ∈ Page.tasks s → Js.number_toString (id u) ≠ taskId) →
     s' = s
     ∧ Page.PatchTask taskId (Page.patch_body newStatus now_body)
       ∈ (Page.handleTaskMove taskId newStatus now_local now_body
            patch_threw s).2).
Proof.
  intros s'. subst s'. simpl. split_and!; try done.
  - by rewrite length_fmap.
  - rewrite <- list_fmap_compose. apply list_fmap_ext.
    intros i t _. apply optimistic_id.
  - intros i u Hu Hne. rewrite list_lookup_fmap, Hu. simpl.
    by rewrite optimistic_other.
  - intros Hnone. split; [|by left].
    destruct s as [ts ? ? ? ? ?]. simpl in *. f_equal.
    rewrite <- (list_fmap_id ts) at 2. apply list_fmap_ext.
    intros i t Ht. apply optimistic_other, Hnone.
    by apply list_elem_of_lookup_2 in Ht.
Qed.

Lemma move_frame_witness :
  let s := Sample.page Fixture.two_tasks None false in
  (∀ u, u ∈ Page.tasks s → Js.number_toString (id u) ≠ "9")
  ∧ (Page.handleTaskMove "9" "done" "now" "now" false s).1 = s
  ∧ Page.PatchTask "9" (Page.patch_body "done" "now")
    ∈ (Page.handleTaskMove "9" "done" "now" "now" false s).2.
Proof.
  intros s.
  assert (∀ u, u ∈ Page.tasks s → Js.number_toString (id u) ≠ "9") as Hnone.
  { intros u Hu. apply elem_of_cons in Hu as [->|Hu]; [discriminate|].
    apply list_elem_of_singleton in Hu as ->. discriminate. }
  split; [exact Hnone|].
  exact (proj2 (proj2 (proj2 (proj2 (proj2 (proj2
    (move_frame "9" "done" "now" "now" false s)))))) Hnone).
Defined.

(** X8. The entry actions of a move, for the task that is moved. Into
    done: [completed_at] becomes the clock reading, locally and in the
    request body, whatever it was. Into in_progress with no [started_at]
    yet: [started_at] becomes the clock reading. A [started_at] that is
    set is never changed locally. Into inbox or review: both instants stay
    as they are and the body carries the status alone. *)
Theorem move_entry_actions (t : Task) (newStatus now_local now_body : string) :
  let taskId := Js.number_toString (id t) in
  let t' := Page.optimistic taskId newStatus now_local t in
  let body := Page.patch_body newStatus now_body in
  status t' = newStatus
  ∧ body !! "status" = Some newStatus
  ∧ (newStatus = "done" →
     completed_at t' = Some now_local
     ∧ body !! "completed_at" = Some now_body
     ∧ body !! "started_at" = None)
  ∧ (newStatus = "in_progress" → Js.truthy_str (started_at t) = false →
     started_at t' = Some now_local)
  ∧ (Js.truthy_str (started_at t) = true → started_at t' = started_at t)
  ∧ (newStatus ≠ "in_progress" → newStatus ≠ "done" →
     started_at t' = started_at t ∧ completed_at t' = completed_at t
     ∧ body = {[ "status" := newStatus ]}).
Proof.
  intros taskId t' body. subst taskId t' body. split_and!.
  - by apply optimistic_status.
  - apply patch_body_status.
  - intros ->. split_and!.
    + by rewrite optimistic_completed_at, String.eqb_refl.
    + by rewrite patch_body_completed_at.
    + by rewrite patch_body_started_at.
  - intros -> Hunset. unfold Page.optimistic.
    by rewrite String.eqb_refl, Hunset.
  - intros Hset. unfold Page.optimistic.
    rewrite String.eqb_refl, Hset, andb_false_r. done.
  - intros H1%String.eqb_neq H2%String.eqb_neq. unfold Page.optimistic, Page.patch_body.
    by rewrite String.eqb_refl, H1, H2.
Qed.

Lemma move_entry_actions_witness :
  let t := Sample.task 1 "review" None None ∅ in
  completed_at (Page.optimistic "1" "done" "2024-02-02T00:00:00.000Z" t)
  = Some "2024-02-02T00:00:00.000Z"
  ∧ Page.patch_body "done" "2024-02-02T00:00:00.001Z" !! "completed_at"
    = Some "2024-02-02T00:00:00.001Z"
  ∧ Page.patch_body "done" "2024-02-02T00:00:00.001Z" !! "started_at" = None.
Proof.
  intros t.
  exact (proj1 (proj2 (proj2
    (move_entry_actions t "done" "2024-02-02T00:00:00.000Z"
       "2024-02-02T00:00:00.001Z"))) eq_refl).
Defined.

(** X9. A drag of a card onto another column, from pick-up to release:
    the board ends with no drag markers, the page holds the optimistic
    list, and exactly one PATCH goes out for the card's id with the
    column's label as status (followed by a refetch only when the PATCH
    request itself failed). *)
Theorem drag_to_other_column (t : Task) (column : TaskStatus)
    (now_local now_body : string) (patch_threw : bool)
    (bs : Board.State) (s : Page.State) :
  status t ≠ "" → status t ≠ status_label column →
  let taskId := Js.number_toString (id t) in
  Page.drag_and_drop t column now_local now_body patch_threw bs s
  = (Board.mkState None None (Board.reviewBucket bs),
     (Page.handleTaskMove taskId (status_label column) now_local now_body
        patch_threw s).1,
     Page.PatchTask taskId (Page.patch_body (status_label column) now_body)
       :: (if patch_threw then [Page.GetTasks] else []))
  ∧ Page.patch_body (status_label column) now_body !! "status"
    = Some (status_label column).
Proof.
  intros Hne Hcol taskId. split; [|apply patch_body_status].
  pose proof (number_toString_nonempty (id t)) as Hid.
  apply String.eqb_neq in Hne, Hcol, Hid.
  unfold Page.drag_and_drop, Page.drop, Board.handleDragStart,
    Board.handleDrop, Board.handleDragEnd.
  cbn [Js.truthy_str negb orb]. rewrite Hid, Hne, Hcol.
  cbn [negb orb fold_left fst snd app Board.reviewBucket].
  unfold Board.handleDragOver. by case_bool_decide.
Qed.

Lemma drag_to_other_column_witness :
  let t := Sample.task 1 "inbox" None None ∅ in
  let idle := Board.mkState None None Board.all in
  let s := Sample.page Fixture.two_tasks None false in
  (Page.drag_and_drop t review "now" "now" false idle s).2
  = [Page.PatchTask "1" (Page.patch_body "review" "now")].
Proof.
  intros t idle s.
  pose proof (proj1 (drag_to_other_column t review "now" "now" false idle s
                       ltac:(discriminate) ltac:(discriminate))) as H.
  exact (f_equal snd H).
Defined.

Section MoveAndGroup.

Implicit Types (t u : Task).

Lemma well_typed_label u (c : TaskStatus) :
  status u = status_label c → well_typed u.
Proof. intros H. exists c. by apply status_of_label_Some. Qed.

Lemma optimistic_well_typed taskId (c : TaskStatus) now u :
  well_typed u → well_typed (Page.optimistic taskId (status_label c) now u).
Proof.
  intros Hu. destruct (decide (Js.number_toString (id u) = taskId)) as [E|E].
  - apply (well_typed_label _ c). by apply optimistic_status.
  - by rewrite optimistic_other.
Qed.

(** On well-typed tasks a bucket holds the tasks of its status. *)
Lemma grouped_well_typed_elem (tasks : list Task) :
  Forall well_typed tasks →
  ∃ b, Board.grouped tasks = Some b
    ∧ ∀ u col, u ∈ Board.bucket b col
               ↔ u ∈ tasks ∧ status u = status_label col.
Proof.
  intros Hwt.
  destruct (forEach_safe tasks Board.empty_buckets (well_typed_safe _ Hwt))
    as (b & Hb & Hs).
  exists b. split; [exact Hb|]. intros u col.
  rewrite Hs.
  assert (Board.bucket Board.empty_buckets col = []) as -> by by destruct col.
  rewrite app_nil_l, list_elem_of_filter. split.
  - intros [<- Hu]. split; [done|].
    apply well_typed_column. by eapply Forall_forall in Hwt.
  - intros [Hu Hst]. split; [|done]. by apply column_of_label.
Qed.

End MoveAndGroup.

(** X10. After a move of card [t] to a column, on a board whose tasks all
    have one of the four statuses, grouping still succeeds on the
    optimistic list; every task with [t]'s id sits in the target column,
    and every task with another id is unchanged and sits in the column of
    its status. *)
Theorem moved_card_changes_column (t : Task) (column : TaskStatus)
    (now_local now_body : string) (patch_threw : bool) (s : Page.State) :
  Forall well_typed (Page.tasks s) → t ∈ Page.tasks s →
  let taskId := Js.number_toString (id t) in
  let s' :=
    (Page.handleTaskMove taskId (status_label column) now_local now_body
       patch_threw s).1 in
  ∃ b, Board.grouped (Page.tasks s') = Some b
    ∧ Page.optimistic taskId (status_label column) now_local t
      ∈ Board.bucket b column
    ∧ (∀ u, u ∈ Page.tasks s' → id u = id t → u ∈ Board.bucket b column)
    ∧ (∀ u, u ∈ Page.tasks s → id u ≠ id t →
            u ∈ Board.bucket b (Board.column_of u)).
Proof.
  intros Hwt Ht taskId s'.
  assert (Forall well_typed (Page.tasks s')) as Hwt'.
  { subst s'. simpl. apply Forall_fmap. eapply Forall_impl; [exact Hwt|].
    intros u Hu. by apply optimistic_well_typed. }
  destruct (grouped_well_typed_elem _ Hwt') as (b & Hb & Hin).
  assert (∀ u, u ∈ Page.tasks s' → id u = id t → status u = status_label column)
    as Hmoved.
  { subst s'. simpl. intros u (v & -> & Hv)%list_elem_of_fmap Hid.
    rewrite optimistic_id in Hid. apply optimistic_status.
    subst taskId. by rewrite Hid. }
  assert (Page.optimistic taskId (status_label column) now_local t
          ∈ Page.tasks s') as Ht'.
  { subst s'. simpl. apply list_elem_of_fmap. by exists t. }
  exists b. split_and!.
  - exact Hb.
  - apply Hin. split; [exact Ht'|]. by apply optimistic_status.
  - intros u Hu Hid. apply Hin. split; [done|]. by apply Hmoved.
  - intros u Hu Hid. apply Hin. split.
    + subst s'. simpl. apply list_elem_of_fmap. exists u. split; [|done].
      symmetry. apply optimistic_other. subst taskId.
      intros E. by apply (inj pretty) in E.
    + apply well_typed_column. by eapply Forall_forall in Hwt.
Qed.

Lemma moved_card_changes_column_witness :
  let t := Sample.task 1 "inbox" None None ∅ in
  let s := Sample.page Fixture.two_tasks None false in
  ∃ b, Board.grouped
         (Page.tasks (Page.handleTaskMove "1" "done" "now" "now" false s).1)
       = Some b
    ∧ Page.optimistic "1" "done" "now" t ∈ Board.bucket b done.
Proof.
  intros t s.
  assert (Forall well_typed (Page.tasks s)) as Hwt.
  { repeat constructor; vm_compute; eauto. }
  assert (t ∈ Page.tasks s) as Ht by left.
  destruct (moved_card_changes_column t done "now" "now" false s Hwt Ht)
    as (b & Hb & Hin & _).
  exists b. split; [exact Hb | exact Hin].
Defined.

(* ===================================================================== *)
(** ** More on refreshing *)
(* ===================================================================== *)



(* ===================================================================== *)
(** ** More on creating, listing and deleting *)
(* ===================================================================== *)

Section StoreExtras.

Implicit Types (db : Store.DB) (r : Store.Row) (b : Store.NewTask).



Lemma existsb_id_false (n : N) (rows : list Store.Row) :
  existsb (λ r, (Store.id r =? n)%N) rows = false
  ↔ ∀ r, r ∈ rows → Store.id r ≠ n.
Proof.
  induction rows as [|r rows IH]; simpl.
  - split; [intros _ r Hr; by apply elem_of_nil in Hr | done].
  - rewrite orb_false_iff, IH, N.eqb_neq. split.
    + intros [Hr Hrows] r' [->|Hr']%elem_of_cons; auto.
    + intros Hall. split; [apply Hall; by left|].
      intros r' Hr'. apply Hall. by right.
Qed.

(** An insert stores a row only when the labels are valid, the sequence
    has a value left, the title is there and the id is free; the row then
    has the next id and goes to the end of the table. *)
Lemma insert_Stored now b db db' r :
  Store.insert now b db = (db', Store.Stored r) →
  db' = Store.mkDB (Store.tasks db ++ [r]) (Store.next_id db + 1)%N
  ∧ (∃ t st pr,
       Store.n_title b = Some t ∧ Store.status_of_body b = Some st
       ∧ Store.priority_of_body b = Some pr
       ∧ r = Store.mkRow (Store.next_id db) None t (Store.n_description b)
               st pr None None None None None (Js.JArr []) (Js.JObj [])
               now now)
  ∧ Keys.insertable b db
  ∧ (∀ r0, r0 ∈ Store.tasks db → Store.id r0 ≠ Store.next_id db).
Proof.
  unfold Store.insert, Keys.insertable.
  destruct (Store.status_of_body b) as [st|]; [|done].
  destruct (Store.priority_of_body b) as [pr|]; [|done].
  destruct (Store.bigint_max <? Z.of_N (Store.next_id db))%Z eqn:Hseq; [done|].
  destruct (Store.n_title b) as [t|]; [|done].
  destruct (existsb _ (Store.tasks db)) eqn:Hfree; [done|].
  intros [= <- <-]. apply Z.ltb_ge in Hseq. split_and!; try done.
  - by exists t, st, pr.
  - by apply existsb_id_false.
Qed.

(** A refused insert leaves the rows alone; only the sequence may have
    moved on. It is refused with 409 when there was nothing to object to
    but the id, and with 400 otherwise. *)
Lemma insert_Refused now b db db' code text :
  Store.insert now b db = (db', Store.Refused code text) →
  Store.tasks db' = Store.tasks db
  ∧ (Store.next_id db ≤ Store.next_id db')%N
  ∧ ((code = 400 ∧ ¬ Keys.insertable b db)
     ∨ (code = 409 ∧ Keys.insertable b db
        ∧ ∃ r0, r0 ∈ Store.tasks db ∧ Store.id r0 = Store.next_id db)).
Proof.
  unfold Store.insert, Keys.insertable.
  destruct (Store.status_of_body b) as [st|].
  2:{ intros [= <- <- <-]. split_and!; [done|lia|]. left. split; [done|].
      by intros (? & _). }
  destruct (Store.priority_of_body b) as [pr|].
  2:{ intros [= <- <- <-]. split_and!; [done|lia|]. left. split; [done|].
      by intros (_ & ? & _). }
  destruct (Store.bigint_max <? Z.of_N (Store.next_id db))%Z eqn:Hseq.
  { apply Z.ltb_lt in Hseq. intros [= <- <- <-].
    split_and!; [done|lia|]. left. split; [done|].
    intros (_ & _ & ? & _). lia. }
  apply Z.ltb_ge in Hseq.
  destruct (Store.n_title b) as [t|].
  2:{ intros [= <- <- <-]. simpl. split_and!; [done|lia|]. left.
      split; [done|]. by intros (_ & _ & _ & ?). }
  destruct (existsb _ (Store.tasks db)) eqn:Hfree; [|done].
  intros [= <- <- <-]. simpl. split_and!; [done|lia|]. right.
  split_and!; try done.
  apply existsb_exists in Hfree as (r0 & Hin & Heq).
  exists r0. split; [by apply list_elem_of_In | by apply N.eqb_eq].
Qed.


Lemma listTasks_rows now db :
  ∃ rows, Api.listTasks now db = (db, Api.mkResponse 200 (Api.Data rows))
    ∧ rows ≡ₚ Store.tasks db.
Proof.
  eexists. split; [reflexivity|]. apply merge_sort_Permutation.
Qed.

End StoreExtras.




(** X14. Whatever the server does, a submit posts at most one body;
    [onCreated] is called only after a post that was answered with a 2xx
    status, and then the form is back to its defaults; otherwise the
    title, description, status and priority the user entered are kept,
    and when a body was posted the dialog shows an error and is no longer
    submitting. *)
Theorem submit_outcomes {S : Type}
    (post : Store.NewTask → S → S * option Api.Response) (thrown : string)
    (s : Dialog.State) (srv : S) :
  let s' := (Dialog.handleSubmit post thrown s srv).1.1.2 in
  let posted := (Dialog.handleSubmit post thrown s srv).1.2 in
  let created := (Dialog.handleSubmit post thrown s srv).2 in
  (posted = [] ∨ posted = [Dialog.request_body s])
  ∧ (created = true →
     posted = [Dialog.request_body s]
     ∧ (∃ r, (post (Dialog.request_body s) srv).2 = Some r
             ∧ Api.ok (Api.code r) = true)
     ∧ s' = Dialog.mkState "" "" inbox medium false None)
  ∧ (created = false →
     Dialog.title s' = Dialog.title s
     ∧ Dialog.description s' = Dialog.description s
     ∧ Dialog.status s' = Dialog.status s
     ∧ Dialog.priority s' = Dialog.priority s
     ∧ (posted ≠ [] →
        is_Some (Dialog.error s') ∧ Dialog.isSubmitting s' = false)).
Proof.
  intros s' posted created. subst s' posted created.
  unfold Dialog.handleSubmit.
  destruct (String.eqb (Js.trim (Dialog.title s)) "").
  { simpl. split_and!; [by left|done|]. intros _. by split_and!. }
  destruct (post (Dialog.request_body s) srv) as [srv' [r|]] eqn:Hpost.
  - destruct (Api.ok (Api.code r)) eqn:Hok; simpl.
    + split_and!; [by right| |done]. intros _. split_and!; [done| |done].
      by exists r.
    + split_and!; [by right|done|]. intros _. split_and!; try done.
      all: intros _; split; [by eexists|done].
  - simpl. split_and!; [by right|done|]. intros _. split_and!; try done.
    all: intros _; split; [by eexists|done].
Qed.

Lemma submit_outcomes_witness :
  let s := Sample.dialog "Implement X" in
  let refuse (b : Store.NewTask) (srv : unit) :=
    (srv, Some (Api.mkResponse 400 (Api.Error "PostgREST error: no"))) in
  Dialog.title (Dialog.handleSubmit refuse "fetch failed" s ()).1.1.2
  = "Implement X"
  ∧ is_Some (Dialog.error (Dialog.handleSubmit refuse "fetch failed" s ()).1.1.2).
Proof.
  intros s refuse.
  destruct (submit_outcomes refuse "fetch failed" s ()) as (_ & _ & Hfail).
  destruct (Hfail eq_refl) as (Ht & _ & _ & _ & Herr).
  split; [exact Ht|]. exact (proj1 (Herr ltac:(discriminate))).
Defined.

(** X15. The primary key holds through every request the board sends to
    the store: a listing, a create whose body carries only a title, a
    description, a status and a priority (so the id comes from the
    sequence), and a delete by id. If no two rows share an id and every id
    is below the sequence's next value, the same is true afterwards,
    whether the request was accepted or refused; and the sequence never
    goes back. *)
Theorem keys_preserved (now : Z) (req : Store.Request) (db : Store.DB) :
  Keys.keys_ok db →
  Keys.keys_ok (Store.serve now req db).1
  ∧ (Store.next_id db ≤ Store.next_id (Store.serve now req db).1)%N.
Proof.
  intros [Hnd Hlt]. destruct req as [order|b|[n|text]]; simpl; try done.
  - destruct (Store.insert now b db) as [db' [r|code text]] eqn:Hins; simpl.
    + apply insert_Stored in Hins
        as (-> & (t & st & pr & _ & _ & _ & ->) & _ & _).
      simpl. split; [split|lia]; simpl.
      * rewrite fmap_app. simpl. apply NoDup_app. split_and!; [done| |].
        -- intros i (r' & -> & Hr')%list_elem_of_fmap Hi.
           apply list_elem_of_singleton in Hi. apply Hlt in Hr'. lia.
        -- apply NoDup_singleton.
      * intros r' [Hr'|Hr']%elem_of_app.
        -- apply Hlt in Hr'. lia.
        -- apply list_elem_of_singleton in Hr' as ->. simpl. lia.
    + apply insert_Refused in Hins as (Hrows & Hseq & _).
      split; [split|done]; rewrite Hrows; [done|].
      intros r Hr. apply Hlt in Hr. lia.
  - destruct (Store.in_bigint n); simpl; [|done].
    split; [split|done]; simpl.
    + rewrite List_filter_stdpp. clear Hlt.
      induction (Store.tasks db) as [|r rows IH]; [done|].
      simpl in Hnd. apply NoDup_cons in Hnd as [Hr Hrows].
      rewrite filter_cons. case_decide; [|by apply IH].
      simpl. apply NoDup_cons. split; [|by apply IH].
      intros (r' & Hid & Hr')%list_elem_of_fmap.
      apply list_elem_of_filter in Hr' as [_ Hr']. apply Hr.
      apply list_elem_of_fmap. by exists r'.
    + intros r Hr. apply Hlt. rewrite List_filter_stdpp in Hr.
      by apply list_elem_of_filter in Hr as [_ Hr].
Qed.

Lemma keys_preserved_witness :
  let db := Store.mkDB [Sample.row 1 high 10; Sample.row 2 low 20] 3 in
  Keys.keys_ok db
  ∧ Keys.keys_ok
      (Store.serve 30
         (Store.InsertTask (Store.mkNewTask None None None None))
         db).1
  ∧ Store.next_id
      (Store.serve 30
         (Store.InsertTask (Store.mkNewTask None None None None))
         db).1 = 4%N.
Proof.
  intros db.
  assert (Keys.keys_ok db) as Hok.
  { split.
    - simpl. apply NoDup_cons. split; [|apply NoDup_singleton].
      intros H%list_elem_of_singleton. discriminate.
    - intros r Hr. apply elem_of_cons in Hr as [->|Hr]; [reflexivity|].
      apply list_elem_of_singleton in Hr as ->. reflexivity. }
  split; [exact Hok|].
  split; [exact (proj1 (keys_preserved 30 _ db Hok))|reflexivity].
Defined.

(** X16. Deleting by an id in the range of BIGINT is idempotent and shows
    in the next listing: a second delete of the same id changes nothing
    and is answered like the first, and the listing after a delete returns
    exactly the rows that were there before and have another id. *)
Theorem deleteTask_then_list (now later : Z) (n : Z) (db : Store.DB) :
  Store.in_bigint n = true →
  let db' := (Api.deleteTask now (Store.IdNumber n) db).1 in
  Api.deleteTask later (Store.IdNumber n) db'
  = (db', Api.mkResponse 200 Api.OkTrue)
  ∧ ∃ rows, Api.listTasks later db' = (db', Api.mkResponse 200 (Api.Data rows))
      ∧ ∀ r, r ∈ rows ↔ r ∈ Store.tasks db ∧ Z.of_N (Store.id r) ≠ n.
Proof.
  intros Hn db'. subst db'. split.
  - unfold Api.deleteTask, Api.DELETE, Api.live, Store.serve. rewrite Hn.
    simpl. do 2 f_equal. rewrite !List_filter_stdpp.
    rewrite list_filter_filter. apply list_filter_iff. tauto.
  - destruct (listTasks_rows later (Api.deleteTask now (Store.IdNumber n) db).1)
      as (rows & Hrows & Hperm).
    exists rows. split; [exact Hrows|]. intros r. rewrite Hperm.
    unfold Api.deleteTask, Api.DELETE, Api.live, Store.serve. rewrite Hn.
    simpl. unfold Store.has_id.
    rewrite List_filter_stdpp, list_elem_of_filter, negb_true_iff, Z.eqb_neq.
    tauto.
Qed.

Lemma deleteTask_then_list_witness :
  let db := Store.mkDB [Sample.row 1 high 10; Sample.row 2 low 20] 3 in
  Store.in_bigint 1 = true
  ∧ Api.deleteTask 40 (Store.IdNumber 1)
      (Api.deleteTask 30 (Store.IdNumber 1) db).1
    = (Store.mkDB [Sample.row 2 low 20] 3, Api.mkResponse 200 Api.OkTrue).
Proof.
  intros db. split; [reflexivity|].
  exact (proj1 (deleteTask_then_list 30 40 1 db eq_refl)).
Defined.

(* ===================================================================== *)
(** ** The proxy routes and upstream failures *)
(* ===================================================================== *)

Section ProxyExtras.

Lemma pass_through_passes_failures thrown success upstream :
  Api.ok success = true →
  Proxy.passes_failures thrown upstream (Api.pass_through thrown success upstream).
Proof.
  intros Hs. unfold Proxy.passes_failures, Api.pass_through.
  destruct upstream as [u|]; [|by split_and!].
  destruct (Api.ok (Store.code u)) eqn:Hok; simpl.
  - split_and!; [done|congruence|]. intros _. by exists u.
  - split_and!; [done| |].
    + by intros u' [= <-] _.
    + unfold Api.upstream_error. simpl. congruence.
Qed.

End ProxyExtras.

(** X17. No route of the task proxy hides an upstream failure. For the
    list, create, update and delete routes alike, over any upstream: the
    upstream state the route leaves is the one its single request left;
    when the request is rejected the answer is 502; when PostgREST answers
    outside 200-299 its status and text are handed on; and the route
    answers 2xx only if PostgREST did. *)
Theorem routes_pass_failures {S : Type}
    (fetch : Store.Request → S → S * option Store.Response)
    (patch : TaskRoute.Request → S → S * option Store.Response)
    (thrown : string) (new : Store.NewTask) (id : Store.IdFilter)
    (change : Js.json) (s : S) :
  ((Api.GET fetch thrown s).1 = (fetch (Store.SelectTasks Api.tasks_order) s).1
   ∧ Proxy.passes_failures thrown
       (fetch (Store.SelectTasks Api.tasks_order) s).2
       (Api.GET fetch thrown s).2)
  ∧ ((Api.POST fetch thrown new s).1 = (fetch (Store.InsertTask new) s).1
     ∧ Proxy.passes_failures thrown (fetch (Store.InsertTask new) s).2
         (Api.POST fetch thrown new s).2)
  ∧ ((Api.DELETE fetch thrown id s).1 = (fetch (Store.DeleteTask id) s).1
     ∧ Proxy.passes_failures thrown (fetch (Store.DeleteTask id) s).2
         (Api.DELETE fetch thrown id s).2)
  ∧ ((TaskRoute.PATCH patch thrown id change s).1
     = (patch (TaskRoute.UpdateTask id change) s).1
     ∧ Proxy.passes_failures thrown
         (patch (TaskRoute.UpdateTask id change) s).2
         (TaskRoute.PATCH patch thrown id change s).2).
Proof.
  split_and!.
  - unfold Api.GET. by destruct (fetch _ s).
  - unfold Api.GET. destruct (fetch _ s) as [s' up]. simpl.
    by apply pass_through_passes_failures.
  - unfold Api.POST. by destruct (fetch _ s).
  - unfold Api.POST. destruct (fetch _ s) as [s' up]. simpl.
    by apply pass_through_passes_failures.
  - unfold Api.DELETE. by destruct (fetch _ s).
  - unfold Api.DELETE. destruct (fetch _ s) as [s' [u|]]; simpl.
    + unfold Proxy.passes_failures.
      destruct (Api.ok (Store.code u)) eqn:Hok; simpl.
      * split_and!; [done|congruence|]. intros _. by exists u.
      * split_and!; [done| |].
        -- by intros u' [= <-] _.
        -- unfold Api.upstream_error. simpl. congruence.
    + by split_and!.
  - unfold TaskRoute.PATCH. by destruct (patch _ s).
  - unfold TaskRoute.PATCH. destruct (patch _ s) as [s' up]. simpl.
    by apply pass_through_passes_failures.
Qed.

(* ===================================================================== *)
(** ** Cards *)
(* ===================================================================== *)

Section CardExtras.

Lemma status_of_label_None (l : string) :
  status_of_label l = None →
  String.eqb l "inbox" = false ∧ String.eqb l "in_progress" = false
  ∧ String.eqb l "review" = false ∧ String.eqb l "done" = false.
Proof.
  unfold status_of_label.
  destruct (String.eqb l "inbox"); [done|].
  destruct (String.eqb l "in_progress"); [done|].
  destruct (String.eqb l "review"); [done|].
  by destruct (String.eqb l "done").
Qed.

End CardExtras.

(** X18. Done tasks are never marked overdue. A task is marked overdue
    only when it has a due date that parses, lies strictly before now, and
    the task is not done, and then its label is the formatted date behind
    the prefix ["Overdue · "]. A task gets no due label exactly when its
    due date is missing, empty or does not parse, and then it is not
    overdue either. *)
Theorem due_state_rules (parse_date : string → option Z)
    (format_date : Z → string) (now : Z) (t : Task) :
  let d := Due.resolveDueState parse_date format_date now t in
  (status t = "done" → Due.isOverdue d = false)
  ∧ (Due.isOverdue d = true →
     ∃ text time,
       due_at t = Some text ∧ parse_date text = Some time
       ∧ (time < now)%Z ∧ status t ≠ "done"
       ∧ Due.due d = Some (Due.overdue_prefix ++ format_date time)%string)
  ∧ (Due.due d = None
     ↔ Js.truthy_str (due_at t) = false
       ∨ ∃ text, due_at t = Some text ∧ parse_date text = None)
  ∧ (Due.due d = None → Due.isOverdue d = false).
Proof.
  intros d. subst d. unfold Due.resolveDueState.
  destruct (Js.truthy_str (due_at t)) eqn:Hdue; simpl.
  2:{ split_and!; try done. split; [by left|done]. }
  destruct (due_at t) as [text|] eqn:Htext; [|done].
  destruct (parse_date text) as [time|] eqn:Hparse; simpl.
  2:{ split_and!; try done. split; [|done]. intros _. right. by exists text. }
  split_and!.
  - intros ->. done.
  - intros [Hnd Hlt]%andb_true_iff. exists text, time.
    rewrite Hnd, Hlt. simpl. split_and!; try done.
    + by apply Z.ltb_lt.
    + apply negb_true_iff in Hnd. by apply String.eqb_neq.
  - split; [done|]. intros [?|(text' & [= <-] & ?)]; congruence.
  - done.
Qed.

Lemma due_state_rules_witness :
  let parse (text : string) := if String.eqb text "2024-01-01" then Some 100%Z else None in
  let show (time : Z) := "Jan 1" in
  let t :=
    mkTask 1 None "Implement X" None "done" "medium" None None
      (Some "2024-01-01") None None [] ∅ "" "" in
  status t = "done"
  ∧ Due.isOverdue (Due.resolveDueState parse show 500 t) = false.
Proof.
  intros parse show t. split; [reflexivity|].
  exact (proj1 (due_state_rules parse show 500 t) eq_refl).
Defined.

(** X19. A card is styled after the column the board files it in: its
    left border is the border of that column's status, the status badge in
    the detail header is that column's badge, and the four columns have
    four different borders. A task with an unknown status is therefore
    drawn as an inbox card in both places, as the grouping has it. *)
Theorem card_styles_follow_column (t : Task) :
  Card.statusBorder (Some (status t))
  = Card.statusBorder (Some (status_label (Board.column_of t)))
  ∧ Card.detail_badge (status t) = Card.column_badge (Board.column_of t)
  ∧ (∀ s1 s2 : TaskStatus,
       Card.statusBorder (Some (status_label s1))
       = Card.statusBorder (Some (status_label s2)) → s1 = s2).
Proof.
  unfold Board.column_of.
  destruct (status_of_label (status t)) as [s|] eqn:E.
  - apply status_of_label_Some in E. rewrite E. split_and!.
    + done.
    + by destruct s.
    + intros [] []; simpl; congruence.
  - apply status_of_label_None in E as (H1 & H2 & H3 & H4).
    unfold Card.statusBorder, Card.detail_badge. rewrite H2, H3, H4.
    split_and!; try done. intros [] []; simpl; congruence.
Qed.

(** X20. A card shows at most three tags, the first three of the task in
    their order; each of them gets a dot colour of the palette, and no two
    tags of one card get the same colour. *)
Theorem card_tags_bounded (tags : list string) :
  length (Card.tag_chips tags) = Nat.min 3 (length tags)
  ∧ (∀ i chip, Card.tag_chips tags !! i = Some chip →
       (i < 3)%nat ∧ tags !! i = Some chip.1
       ∧ ∃ colour, chip.2 = Some colour ∧ colour ∈ Card.TAG_DOT_COLORS)
  ∧ (∀ i j ci cj,
       Card.tag_chips tags !! i = Some ci →
       Card.tag_chips tags !! j = Some cj → ci.2 = cj.2 → i = j).
Proof.
  assert (∀ i chip, Card.tag_chips tags !! i = Some chip →
            (i < 3)%nat ∧ tags !! i = Some chip.1 ∧ chip.2 = Card.tag_dot i)
    as Hchip.
  { intros i chip. unfold Card.tag_chips, Card.visibleTags.
    rewrite list_lookup_imap. intros Hi.
    destruct (take 3 tags !! i) as [tag|] eqn:Htag; [|done].
    simpl in Hi. injection Hi as <-. simpl.
    apply lookup_take_Some in Htag as [Htag Hlt]. done. }
  split_and!.
  - unfold Card.tag_chips, Card.visibleTags.
    by rewrite length_imap, length_take.
  - intros i chip Hi. apply Hchip in Hi as (Hlt & Htag & ->).
    split_and!; [done..|].
    destruct i as [|[|[|i]]]; [| | |lia]; eexists; (split; [reflexivity|]);
      unfold Card.TAG_DOT_COLORS; repeat (first [by left | right]).
  - intros i j ci cj Hi Hj Heq.
    apply Hchip in Hi as (Hi & _ & Hci). apply Hchip in Hj as (Hj & _ & Hcj).
    rewrite Hci, Hcj in Heq.
    destruct i as [|[|[|i]]], j as [|[|[|j]]]; try lia; try done.
Qed.

Section PriorityBadge.

Lemma toLowerCase_empty (v : string) :
  JsText.toLowerCase v = "" → v = "".
Proof. by destruct v. Qed.

End PriorityBadge.

(** X21. The priority badge does not depend on letter case: a value whose
    lower-casing is a priority label gets that priority's badge; the four
    priorities have four different badges; and a missing value, or one
    whose lower-casing is no priority label, gets the muted badge. *)
Theorem priority_badge_by_case (v : string) :
  (∀ p : TaskPriority,
     JsText.toLowerCase v = priority_label p →
     Card.priorityBadge (Some v) = Card.priorityBadge (Some (priority_label p)))
  ∧ (∀ p q : TaskPriority,
       Card.priorityBadge (Some (priority_label p))
       = Card.priorityBadge (Some (priority_label q)) → p = q)
  ∧ (priority_of_label (JsText.toLowerCase v) = None →
     Card.priorityBadge (Some v) = Card.priorityBadge None).
Proof.
  split_and!.
  - intros p Hv. unfold Card.priorityBadge.
    assert (Js.truthy_str (Some v) = true) as ->.
    { simpl. apply negb_true_iff, String.eqb_neq. intros ->.
      simpl in Hv. by destruct p. }
    rewrite Hv. by destruct p.
  - intros [] []; vm_compute; congruence.
  - unfold Card.priorityBadge, priority_of_label.
    destruct (Js.truthy_str (Some v)); [|done]. simpl.
    destruct (String.eqb (JsText.toLowerCase v) "low") eqn:E1; [done|].
    destruct (String.eqb (JsText.toLowerCase v) "medium") eqn:E2; [done|].
    destruct (String.eqb (JsText.toLowerCase v) "high") eqn:E3; [done|].
    by destruct (String.eqb (JsText.toLowerCase v) "critical") eqn:E4.
Qed.

Lemma priority_badge_by_case_witness :
  Card.priorityBadge (Some "CRITICAL")
  = Card.priorityBadge (Some (priority_label critical)).
Proof.
  exact (proj1 (priority_badge_by_case "CRITICAL") critical eq_refl).
Defined.

(* ===================================================================== *)
(** ** Steps, reviews and the cascade *)
(* ===================================================================== *)

Section SchemaExtras.

Implicit Types (db : Schema.DB) (s : Schema.StepRow) (r : Schema.ReviewRow).

Lemma task_exists_spec (n : N) (tdb : Store.DB) :
  Schema.task_exists n tdb = true ↔ ∃ row, row ∈ Store.tasks tdb ∧ Store.id row = n.
Proof.
  unfold Schema.task_exists. rewrite existsb_exists. split.
  - intros (row & Hin & Heq). exists row. split; [by apply list_elem_of_In|].
    by apply N.eqb_eq.
  - intros (row & Hin & Heq). exists row. split; [by apply list_elem_of_In|].
    by apply N.eqb_eq.
Qed.

Lemma has_id_spec (n : Z) (tdb : Store.DB) :
  existsb (Store.has_id n) (Store.tasks tdb) = true
  ↔ ∃ row, row ∈ Store.tasks tdb ∧ Z.of_N (Store.id row) = n.
Proof.
  rewrite existsb_exists. unfold Store.has_id. split.
  - intros (row & Hin & Heq). exists row. split; [by apply list_elem_of_In|].
    by apply Z.eqb_eq.
  - intros (row & Hin & Heq). exists row. split; [by apply list_elem_of_In|].
    by apply Z.eqb_eq.
Qed.

Lemma task_exists_after_insert now b tdb n :
  Schema.task_exists n tdb = true →
  Schema.task_exists n (Store.insert now b tdb).1 = true.
Proof.
  rewrite !task_exists_spec. intros (r0 & Hin & Heq). exists r0.
  split; [|done].
  destruct (Store.insert now b tdb) as [tdb' [row|code text]] eqn:Hins; simpl.
  - apply insert_Stored in Hins as (-> & _). simpl. apply elem_of_app.
    by left.
  - apply insert_Refused in Hins as (-> & _). done.
Qed.

Lemma task_exists_after_delete (n : Z) (m : N) (tdb : Store.DB) now :
  Z.of_N m ≠ n → Schema.task_exists m tdb = true →
  Schema.task_exists m (Store.serve now (Store.DeleteTask (Store.IdNumber n)) tdb).1
  = true.
Proof.
  intros Hne. simpl. destruct (Store.in_bigint n); [|done]. simpl.
  rewrite !task_exists_spec. intros (r0 & Hin & Heq).
  exists r0. split; [|done]. simpl. rewrite List_filter_stdpp.
  apply list_elem_of_filter. split; [|done].
  apply negb_true_iff, Z.eqb_neq. congruence.
Qed.

Lemma serve_insert_fst now b tdb :
  (Store.serve now (Store.InsertTask b) tdb).1 = (Store.insert now b tdb).1.
Proof. simpl. by destruct (Store.insert now b tdb) as [? [|]]. Qed.



Lemma filter_steps_none (n : Z) (l : list Schema.StepRow) :
  (∀ s, s ∈ l → Z.of_N (Schema.step_task_id s) ≠ n) →
  List.filter (λ s, (Z.of_N (Schema.step_task_id s) =? n)%Z) l = [].
Proof.
  induction l as [|s l IH]; intros Hnone; [done|]. simpl.
  assert ((Z.of_N (Schema.step_task_id s) =? n)%Z = false) as ->.
  { apply Z.eqb_neq, Hnone. by left. }
  apply IH. intros s' Hs'. apply Hnone. by right.
Qed.

End SchemaExtras.

(** X22. The foreign keys hold through every request on tasks: if every
    step and every review belongs to a task that is in the table, the same
    is true after a listing, an insert and a delete (which takes the
    task's steps and reviews with it). *)
Theorem references_preserved (now : Z) (req : Store.Request) (db : Schema.DB) :
  Schema.references_hold db →
  Schema.references_hold (Schema.serve_tasks now req db).1.
Proof.
  intros [Hsteps Hreviews]. unfold Schema.serve_tasks.
  destruct req as [order|b|[n|text]].
  - done.
  - pose proof (serve_insert_fst now b (Schema.task_table db)) as Hfst.
    destruct (Store.serve now (Store.InsertTask b) (Schema.task_table db))
      as [tdb' res]. simpl in Hfst. subst tdb'.
    split; simpl; intros x Hx; apply task_exists_after_insert; auto.
  - pose proof (λ m, task_exists_after_delete n m (Schema.task_table db) now)
      as Hkeep.
    destruct (Store.serve now (Store.DeleteTask (Store.IdNumber n))
                (Schema.task_table db)) as [tdb' res] eqn:Hserve.
    simpl in Hkeep.
    destruct (Store.in_bigint n) eqn:Hn; simpl.
    + destruct (existsb (Store.has_id n) (Store.tasks (Schema.task_table db)))
        eqn:Hex; simpl.
      * split; simpl; intros x Hx; rewrite List_filter_stdpp in Hx;
          apply list_elem_of_filter in Hx as [Hne Hx];
          apply negb_true_iff, Z.eqb_neq in Hne;
          apply Hkeep; auto.
      * assert (∀ m, Schema.task_exists m (Schema.task_table db) = true →
                     Z.of_N m ≠ n) as Hother.
        { intros m (row & Hin & <-)%task_exists_spec E.
          assert (existsb (Store.has_id n) (Store.tasks (Schema.task_table db))
                  = true) as Hyes; [|congruence].
          apply has_id_spec. by exists row. }
        split; simpl; intros x Hx; apply Hkeep; auto.
    + simpl in Hserve. rewrite Hn in Hserve. injection Hserve as <- _.
      by split.
  - done.
Qed.

Lemma references_preserved_witness :
  Schema.references_hold Fixture.tables
  ∧ Schema.references_hold
      (Schema.serve_tasks 0 (Store.DeleteTask (Store.IdNumber 1))
         Fixture.tables).1.
Proof.
  assert (Schema.references_hold Fixture.tables) as Hok.
  { split; intros x Hx; simpl in Hx;
      repeat (apply elem_of_cons in Hx as [->|Hx]; [reflexivity|]);
      by apply elem_of_nil in Hx. }
  split; [exact Hok|].
  exact (references_preserved 0 _ Fixture.tables Hok).
Defined.



(** X24. Deleting a task through the proxy, by an id in the range of
    BIGINT, takes its steps and reviews with it: afterwards the steps
    route answers 200 with an empty list for that task, no review of it is
    left, and the steps listed for every other task are what they were. *)
Theorem delete_cascades (now : Z) (n : Z) (db : Schema.DB) :
  Schema.references_hold db →
  Store.in_bigint n = true →
  let db' := (StepsRoute.deleteTask now (Store.IdNumber n) db).1 in
  (StepsRoute.deleteTask now (Store.IdNumber n) db).2
  = Api.mkResponse 200 Api.OkTrue
  ∧ (StepsRoute.listSteps (Store.IdNumber n) db').2
    = StepsRoute.mkResponse 200 (StepsRoute.Data [])
  ∧ (∀ r, r ∈ Schema.task_reviews db' → Z.of_N (Schema.review_task_id r) ≠ n)
  ∧ (∀ m, m ≠ n →
       (StepsRoute.listSteps (Store.IdNumber m) db').2
       = (StepsRoute.listSteps (Store.IdNumber m) db).2).
Proof.
  intros [Hsteps Hreviews] Hn db'. subst db'.
  unfold StepsRoute.deleteTask, Api.DELETE, StepsRoute.live, Schema.serve_tasks.
  unfold StepsRoute.listSteps, StepsRoute.GET, Schema.select_steps.
  simpl. rewrite Hn. simpl.
  destruct (existsb (Store.has_id n) (Store.tasks (Schema.task_table db)))
    eqn:Hex; simpl.
  - split_and!; [done| | |].
    + do 2 f_equal.
      assert (List.filter (λ s, (Z.of_N (Schema.step_task_id s) =? n)%Z)
                (List.filter (λ s, negb (Z.of_N (Schema.step_task_id s) =? n)%Z)
                   (Schema.task_steps db)) = []) as ->; [|done].
      apply filter_steps_none. intros s Hs. rewrite List_filter_stdpp in Hs.
      apply list_elem_of_filter in Hs as [Hne _].
      apply negb_true_iff in Hne. by apply Z.eqb_neq in Hne.
    + intros r Hr. rewrite List_filter_stdpp in Hr.
      apply list_elem_of_filter in Hr as [Hne _].
      apply negb_true_iff in Hne. by apply Z.eqb_neq in Hne.
    + intros m Hm. destruct (Store.in_bigint m); [|done]. simpl.
      do 3 f_equal.
      generalize (Schema.task_steps db). intros l.
      induction l as [|s l IH]; [done|]. simpl.
      destruct (Z.of_N (Schema.step_task_id s) =? n)%Z eqn:E; simpl.
      * apply Z.eqb_eq in E.
        assert ((Z.of_N (Schema.step_task_id s) =? m)%Z = false) as ->; [|done].
        apply Z.eqb_neq. congruence.
      * destruct (Z.of_N (Schema.step_task_id s) =? m)%Z; by rewrite IH.
  - assert (∀ x, Schema.task_exists x (Schema.task_table db) = true →
                 Z.of_N x ≠ n) as Hother.
    { intros x (row & Hin & <-)%task_exists_spec E.
      assert (existsb (Store.has_id n) (Store.tasks (Schema.task_table db))
              = true) as Hyes; [|congruence].
      apply has_id_spec. by exists row. }
    split_and!; [done| | |done].
    + do 2 f_equal.
      assert (List.filter (λ s, (Z.of_N (Schema.step_task_id s) =? n)%Z)
                (Schema.task_steps db) = []) as ->; [|done].
      apply filter_steps_none. intros s Hs. by apply Hother, Hsteps.
    + intros r Hr. by apply Hother, Hreviews.
Qed.

Lemma delete_cascades_witness :
  Schema.references_hold Fixture.tables
  ∧ Store.in_bigint 1 = true
  ∧ (StepsRoute.listSteps (Store.IdNumber 1)
       (StepsRoute.deleteTask 0 (Store.IdNumber 1) Fixture.tables).1).2
    = StepsRoute.mkResponse 200 (StepsRoute.Data []).
Proof.
  assert (Schema.references_hold Fixture.tables) as Hok.
  { split; intros x Hx; simpl in Hx;
      repeat (apply elem_of_cons in Hx as [->|Hx]; [reflexivity|]);
      by apply elem_of_nil in Hx. }
  split; [exact Hok|]. split; [reflexivity|].
  exact (proj1 (proj2 (delete_cascades 0 1 Fixture.tables Hok eq_refl))).
Defined.
